(** * AMN LDA backend (main.py): catalog query, posts feed and chat assistant

    A shallow embedding of the three request handlers of [main.py] that carry
    decision logic ([list_products], [list_posts], [chatbot]) and the
    properties of them stated in the specification, followed by the health
    check [test_database] and the [sitemap] handler.

    Conventions of the embedding.
    - A Python [str] is the list of its Unicode code points ([str]); the
      literals of the source are written as Rocq strings and decoded from
      UTF-8 by [u].
    - A Python [float] that is finite is the rational number it denotes
      ([Q]); comparisons of finite floats are comparisons of rationals.
      A number of a stored document is a float or a 64-bit integer, and
      [float()] of an integer rounds it to the nearest double.
    - A document of the store is a record with optional fields, a missing
      key being [None].
    - The store call [get_documents] (module [database], outside [main.py])
      is a parameter of the handlers; it returns documents or raises.
    - [dict] objects that the code builds by assignment are [gmap]s. *)

From stdpp Require Import gmap strings list fin_maps sorting.
From Stdlib Require Import QArith.

Set Warnings "-register-all".

Local Open Scope Z_scope.

(** ** Python strings *)

Module PyStr.

(** A string is the sequence of its code points. *)
Definition str : Type := list N.

(** *** UTF-8 decoding of the literals of the source file *)

Definition byte_of (a : Ascii.ascii) : N := Ascii.N_of_ascii a.

Fixpoint bytes_of (s : string) : list N :=
  match s with
  | EmptyString => []
  | String a s' => byte_of a :: bytes_of s'
  end.

(** Payload of a continuation byte [10xxxxxx]. *)
Definition cont (b : N) : N := N.land b 63.

Fixpoint utf8 (fuel : nat) (bs : list N) : str :=
  match fuel with
  | O => []
  | S fuel' =>
      match bs with
      | [] => []
      | b0 :: r0 =>
          if (b0 <? 128)%N then b0 :: utf8 fuel' r0
          else if (b0 <? 224)%N then
            match r0 with
            | b1 :: r1 =>
                (N.land b0 31 * 64 + cont b1)%N :: utf8 fuel' r1
            | _ => []
            end
          else if (b0 <? 240)%N then
            match r0 with
            | b1 :: b2 :: r2 =>
                (N.land b0 15 * 4096 + cont b1 * 64 + cont b2)%N
                  :: utf8 fuel' r2
            | _ => []
            end
          else
            match r0 with
            | b1 :: b2 :: b3 :: r3 =>
                (N.land b0 7 * 262144 + cont b1 * 4096 + cont b2 * 64
                 + cont b3)%N :: utf8 fuel' r3
            | _ => []
            end
      end
  end.

(** [u "..."] is the Python string written ["..."] in the source. *)
Definition u (s : string) : str :=
  let bs := bytes_of s in utf8 (length bs) bs.

(** *** [str.strip()] *)

(** [str.isspace] on one code point: the characters that [strip] removes
    when called without argument. *)
Definition isspace (c : N) : bool :=
  ((9 <=? c) && (c <=? 13) || (28 <=? c) && (c <=? 32)
   || (c =? 133) || (c =? 160) || (c =? 5760)
   || (8192 <=? c) && (c <=? 8202)
   || (c =? 8232) || (c =? 8233) || (c =? 8239) || (c =? 8287)
   || (c =? 12288))%N.

Fixpoint lstrip (s : str) : str :=
  match s with
  | [] => []
  | c :: s' => if isspace c then lstrip s' else s
  end.

Definition rstrip (s : str) : str := rev (lstrip (rev s)).

Definition strip (s : str) : str := rstrip (lstrip s).

(** *** [str.lower()] *)

(** Lowercase mapping of the code points up to U+00FF: A-Z, and the
    Latin-1 capitals U+00C0-U+00DE without the multiplication sign
    U+00D7, move up by 32; every other code point below U+0100 is its
    own lowercase. *)
Definition lower_latin1 (c : N) : N :=
  if ((65 <=? c) && (c <=? 90))%N then (c + 32)%N
  else if ((192 <=? c) && (c <=? 222) && negb (c =? 215))%N then (c + 32)%N
  else c.

Definition is_latin1 (s : str) : bool := forallb (fun c => (c <? 256)%N) s.

Section Lower.

(** [str.lower] on a string that has a code point above U+00FF follows
    the Unicode character database (with its context rule for the final
    sigma); that table is not part of the source and is a parameter. *)
Variable unicode_lower : str -> str.

Definition lower (s : str) : str :=
  if is_latin1 s then map lower_latin1 s else unicode_lower s.

End Lower.

(** *** [w in text] on strings: [w] occurs as a substring of [text] *)

Fixpoint startswith (w text : str) : bool :=
  match w, text with
  | [], _ => true
  | _ :: _, [] => false
  | a :: w', b :: text' => (a =? b)%N && startswith w' text'
  end.

Fixpoint contains (w text : str) : bool :=
  startswith w text ||
  match text with
  | [] => false
  | _ :: text' => contains w text'
  end.

(** [x or ""] on a string: the empty string is falsy and is replaced by
    the empty string. *)
Definition or_empty (x : str) : str :=
  match x with [] => [] | _ => x end.

(** Truthiness of an [Optional[str]]: [None] and [""] are falsy. *)
Definition truthy (x : option str) : bool :=
  match x with
  | None => false
  | Some [] => false
  | Some (_ :: _) => true
  end.

End PyStr.

Export PyStr.

(** ** The chat assistant: [chatbot] *)

Module Chatbot.

(** [class ChatMessage(BaseModel)]: a message and an optional context
    payload, which the handler never reads. *)
Record ChatMessage := {
  message : str;
  context : option (gmap string str);
}.

(** The reply dictionaries of [chatbot]: the key ["reply"] is always
    present, ["suggestions"] and ["action"] only in some branches. *)
Record Reply := {
  reply : str;
  suggestions : option (list str);
  action : option str;
}.

Definition pricing_keywords : list str :=
  [u "orcamento"; u "preço"; u "cotacao"; u "cotação"].

Definition scheduling_keywords : list str :=
  [u "horario"; u "assistencia"; u "visita"; u "técnico"; u "tecnico"].

Definition pricing_reply : Reply := {|
  reply := u "Para orçamento rápido, indique produto, dimensões, tiragem e prazo. Podemos gerar uma proposta base automaticamente.";
  suggestions := Some [
    u "Cartões de visita 500 unid. 350g laminado fosco";
    u "Flyers A5 1000 unid. 170g couché";
    u "Lona 2x1m com ilhoses" ];
  action := None;
|}.

Definition scheduling_reply : Reply := {|
  reply := u "Podemos agendar assistência. Indique data/horário preferido e local. Enviaremos convite do Google Calendar.";
  suggestions := None;
  action := Some (u "schedule_suggest");
|}.

Definition generic_reply : Reply := {|
  reply := u "Olá! Sou o assistente AMN. Posso ajudar com produtos, prazos, orçamentos e assistência técnica.";
  suggestions := Some [u "Ver catálogo"; u "Pedir orçamento"; u "Falar com humano"];
  action := None;
|}.

(** [any(w in text for w in ws)] *)
Definition any_in (ws : list str) (text : str) : bool :=
  existsb (fun w => contains w text) ws.

(** The two [if] statements and the final [return] of [chatbot], on the
    normalized text. *)
Definition classify (text : str) : Reply :=
  if any_in pricing_keywords text then pricing_reply
  else if any_in scheduling_keywords text then scheduling_reply
  else generic_reply.

Section Handler.

Variable unicode_lower : str -> str.

(** [text = (msg.message or "").strip().lower()] *)
Definition normalize (m : str) : str :=
  lower unicode_lower (strip (or_empty m)).

Definition chatbot (msg : ChatMessage) : Reply :=
  classify (normalize (message msg)).

End Handler.

End Chatbot.

(** ** Python values, slices and [sorted] *)

Module Py.

(** The values that [list_products] stores in the filter dictionary. *)
Inductive pyval :=
| VStr (s : str)
| VBool (b : bool)
| VFloat (x : Q)
| VList (l : list pyval)
| VDict (d : gmap string pyval).

(** Outcome of a call that may raise: the value returned, or the
    exception (an instance of [Exception], with its message). *)
Inductive outcome (A : Type) :=
| Returns (x : A)
| Raises (e : str).

Arguments Returns {A} x.
Arguments Raises {A} e.

(** [len(l)] *)
Definition len {A} (l : list A) : Z := Z.of_nat (length l).

(** [l[:n]]: a negative bound counts from the end of the list, a bound
    beyond the length keeps the whole list. *)
Definition slice_to {A} (l : list A) (n : Z) : list A :=
  if n <? 0 then take (Z.to_nat (Z.max 0 (len l + n))) l
  else take (Z.to_nat n) l.

(** *** Numbers and [float()] *)

(** An integer of a stored document: the integers of the document store
    are signed 64-bit integers. *)
Record int64 := {
  int64_val : Z;
  int64_range : Is_true ((- 2 ^ 63 <=? int64_val) && (int64_val <? 2 ^ 63));
}.

(** The default [0] of [d.get("price", 0)]. *)
Definition int64_zero : int64 := {| int64_val := 0; int64_range := I |}.

(** A number of a document: a Python [int] or a finite [float]. *)
Inductive number :=
| PyInt (i : int64)
| PyFloat (x : Q).

(** The number itself, as a rational. *)
Definition num_value (n : number) : Q :=
  match n with
  | PyInt i => inject_Z (int64_val i)
  | PyFloat x => x
  end.

(** The multiple of [2^e] nearest to [m >= 0], the even one of the two
    when [m] lies half way. *)
Definition round_half_even (m e : Z) : Z :=
  let q := m / 2 ^ e in
  let r := m mod 2 ^ e in
  let half := 2 ^ (e - 1) in
  if r <? half then q * 2 ^ e
  else if half <? r then (q + 1) * 2 ^ e
  else if Z.even q then q * 2 ^ e
  else (q + 1) * 2 ^ e.

(** [float(z)] for an integer: [z] itself while it has at most 53
    significant bits, otherwise [z] rounded to 53 significant bits, half
    way cases to even. *)
Definition float_of_int (z : Z) : Q :=
  let m := Z.abs z in
  if m <? 2 ^ 53 then inject_Z z
  else inject_Z (Z.sgn z * round_half_even m (Z.log2 m - 52)).

(** [float(n)] *)
Definition py_float (n : number) : Q :=
  match n with
  | PyInt i => float_of_int (int64_val i)
  | PyFloat x => x
  end.

Section Sorted.

Context {A : Type}.
Variable key : A -> Q.

(** Place [x], which stood before every element of the sorted list [l],
    before the first element whose key is not smaller than its own; as in
    CPython only [<] is asked of the keys. *)
Fixpoint insert_sorted (x : A) (l : list A) : list A :=
  match l with
  | [] => [x]
  | y :: l' =>
      match (key y ?= key x)%Q with
      | Lt => y :: insert_sorted x l'
      | _ => x :: y :: l'
      end
  end.

Fixpoint sort_asc (l : list A) : list A :=
  match l with
  | [] => []
  | x :: l' => insert_sorted x (sort_asc l')
  end.

(** [sorted(l, key=key, reverse=reverse)]: a stable sort on the keys;
    with [reverse=True] CPython reverses the list, sorts it and reverses
    the result, which keeps the sort stable.  CPython sorts by merging
    runs; on keys that are finite numbers every stable sort computes the
    same list (lemma [sorted_ascending_unique] below), here by
    insertion. *)
Definition sorted (reverse : bool) (l : list A) : list A :=
  if reverse then rev (sort_asc (rev l)) else sort_asc l.

(** Ascending and descending order of the keys. *)
Definition key_le (a b : A) : Prop := (key a <= key b)%Q.
Definition key_ge (a b : A) : Prop := (key b <= key a)%Q.

(** The elements whose key is [p]. *)
Definition has_key (p : Q) (a : A) : bool := Qeq_bool (key a) p.

End Sorted.

End Py.

Export Py.

(** ** The products catalog: [list_products] *)

Module Catalog.

(** A product document: the keys of the demo records, each of which a
    document of the store may lack; the price, when the document has
    one, is a number. *)
Record Product := {
  _id : option str;
  title : option str;
  description : option str;
  price : option number;
  category : option str;
  in_stock : option bool;
}.

(** The response [{"items": docs, "count": len(docs)}]. *)
Record Response := {
  items : list Product;
  count : Z;
}.

(** The [demo] list of the [except] branch. *)
Definition demo : list Product := [
  {| _id := Some (u "demo-1");
     title := Some (u "Cartão de Visita Premium");
     description := Some (u "Impressão de alta qualidade com acabamento fosco/UV.");
     price := Some (PyFloat (299 # 10));
     category := Some (u "Cartões");
     in_stock := Some true |};
  {| _id := Some (u "demo-2");
     title := Some (u "Flyers Dobráveis");
     description := Some (u "Papel couché 170g, dobra em 3 painéis.");
     price := Some (PyFloat (49 # 1));
     category := Some (u "Flyers");
     in_stock := Some true |};
  {| _id := Some (u "demo-3");
     title := Some (u "Lonas Publicitárias");
     description := Some (u "Impressão resistente para exterior com ilhoses.");
     price := Some (PyFloat (99 # 1));
     category := Some (u "Grandes Formatos");
     in_stock := Some false |}
].

(** [{field: {"$regex": q, "$options": "i"}}] *)
Definition regex_clause (field : string) (q : str) : pyval :=
  VDict {[ field := VDict (<["$options" := VStr (u "i")]>
                            {[ "$regex" := VStr q ]}) ]}.

(** Lines 102-120: the filter dictionary, built key by key. *)
Definition build_filter (q category : option str)
    (min_price max_price : option Q) (in_stock : option bool)
    : gmap string pyval :=
  let filter_dict : gmap string pyval := ∅ in
  let filter_dict :=
    match category with
    | Some c => if truthy category then <["category" := VStr c]> filter_dict
                else filter_dict
    | None => filter_dict
    end in
  let filter_dict :=
    match in_stock with
    | Some b => <["in_stock" := VBool b]> filter_dict
    | None => filter_dict
    end in
  let filter_dict :=
    match q with
    | Some q' =>
        if truthy q then
          <["$or" := VList [regex_clause "title" q';
                            regex_clause "description" q';
                            regex_clause "category" q']]> filter_dict
        else filter_dict
    | None => filter_dict
    end in
  if bool_decide (min_price ≠ None) || bool_decide (max_price ≠ None) then
    let price_filter : gmap string pyval := ∅ in
    let price_filter :=
      match min_price with
      | Some lo => <["$gte" := VFloat lo]> price_filter
      | None => price_filter
      end in
    let price_filter :=
      match max_price with
      | Some hi => <["$lte" := VFloat hi]> price_filter
      | None => price_filter
      end in
    <["price" := VDict price_filter]> filter_dict
  else filter_dict.

(** [float(d.get("price", 0))] *)
Definition price_key (d : Product) : Q :=
  py_float (match price d with
            | Some p => p
            | None => PyInt int64_zero
            end).

Section Handler.

(** [get_documents(collection_name, filter_dict, limit)] of the module
    [database]. *)
Variable get_documents :
  str -> gmap string pyval -> Z -> outcome (list Product).

(** Lines 122-153: the documents of the store, or on any exception the
    first [limit] demo records. *)
Definition fetch (filter_dict : gmap string pyval) (limit : Z)
    : list Product :=
  match get_documents (u "product") filter_dict limit with
  | Returns docs => docs
  | Raises _ => slice_to demo limit
  end.

(** Lines 156-159: the server-side sort. *)
Definition apply_sort (sort : option str) (docs : list Product)
    : list Product :=
  if bool_decide (sort = Some (u "price_asc")) then
    sorted price_key false docs
  else if bool_decide (sort = Some (u "price_desc")) then
    sorted price_key true docs
  else docs.

Definition list_products (q category : option str)
    (min_price max_price : option Q) (in_stock : option bool)
    (sort : option str) (limit : Z) : Response :=
  let filter_dict := build_filter q category min_price max_price in_stock in
  let docs := fetch filter_dict limit in
  let docs := apply_sort sort docs in
  {| items := docs; count := len docs |}.

End Handler.

(** A store whose every call raises. *)
Definition unavailable
    : str -> gmap string pyval -> Z -> outcome (list Product) :=
  fun _ _ _ => Raises (u "Database not available").

(** A store that returns the given documents whatever it is asked. *)
Definition serving (docs : list Product)
    : str -> gmap string pyval -> Z -> outcome (list Product) :=
  fun _ _ _ => Returns docs.

End Catalog.

(** ** The posts feed: [list_posts] *)

Module Posts.

Record Post := {
  _id : str;
  title : str;
  excerpt : str;
  category : str;
  date : str;
}.

(** The response [{"items": docs}]. *)
Record Response := {
  items : list Post;
}.

(** The literal list of the [except] branch. *)
Definition demo_posts : list Post := [
  {| _id := u "n1";
     title := u "Nova linha de impressão sustentável";
     excerpt := u "Apresentamos materiais eco-friendly com a mesma qualidade premium.";
     category := u "Notícias";
     date := u "2025-01-10" |};
  {| _id := u "n2";
     title := u "Guia de acabamentos para cartões";
     excerpt := u "Como escolher entre laminação fosca, brilho UV localizado e mais.";
     category := u "Guias Técnicos";
     date := u "2025-02-05" |};
  {| _id := u "n3";
     title := u "Estúdio 3D para protótipos de embalagens";
     excerpt := u "Veja os seus produtos em 3D antes de produzir.";
     category := u "Lançamentos";
     date := u "2025-03-18" |}
].

Section Handler.

Variable get_documents :
  str -> gmap string pyval -> Z -> outcome (list Post).

Definition list_posts (limit : Z) : Response :=
  let docs :=
    match get_documents (u "blogpost") ∅ limit with
    | Returns docs => docs
    | Raises _ => slice_to demo_posts limit
    end in
  {| items := docs |}.

End Handler.

(** A store whose every call raises. *)
Definition unavailable
    : str -> gmap string pyval -> Z -> outcome (list Post) :=
  fun _ _ _ => Raises (u "Database not available").

End Posts.

(** ** What a filter dictionary asks of a document

    [get_documents] hands the filter to the document store, which reads
    it as a MongoDB query: every entry of the dictionary must hold; an
    entry [field: value] asks for that exact value, an entry
    [field: {operator: argument, ...}] for every operator to hold of the
    field, and the entry ["$or": [...]] for one of the listed
    sub-filters to hold.  Only the operators that [build_filter] emits
    are read. *)

Module Mongo.

Import Catalog.

(** The value of a document under a key. *)
Definition field (k : string) (d : Product) : option pyval :=
  if bool_decide (k = "_id") then VStr <$> _id d
  else if bool_decide (k = "title") then VStr <$> title d
  else if bool_decide (k = "description") then VStr <$> description d
  else if bool_decide (k = "price") then VFloat <$> (num_value <$> price d)
  else if bool_decide (k = "category") then VStr <$> category d
  else if bool_decide (k = "in_stock") then VBool <$> in_stock d
  else None.

(** [field: value] with a value that is no dictionary: exact match. *)
Definition equals (v : pyval) (fv : option pyval) : bool :=
  match v, fv with
  | VStr s, Some (VStr s') => bool_decide (s = s')
  | VBool b, Some (VBool b') => bool_decide (b = b')
  | VFloat x, Some (VFloat y) => Qeq_bool x y
  | _, _ => false
  end.

(** The ["$options"] that go with a ["$regex"]. *)
Definition regex_options (ops : gmap string pyval) : str :=
  match ops !! "$options" with
  | Some (VStr o) => o
  | _ => []
  end.

Section Semantics.

(** [regex_search pattern options subject]: the regular-expression search
    of the store, which is not part of the source. *)
Variable regex_search : str -> str -> str -> bool.

Definition operator_holds (ops : gmap string pyval) (fv : option pyval)
    (op : string) (arg : pyval) : bool :=
  if bool_decide (op = "$regex") then
    match arg, fv with
    | VStr p, Some (VStr s) => regex_search p (regex_options ops) s
    | _, _ => false
    end
  else if bool_decide (op = "$options") then true
  else if bool_decide (op = "$gte") then
    match arg, fv with
    | VFloat b, Some (VFloat x) => Qle_bool b x
    | _, _ => false
    end
  else if bool_decide (op = "$lte") then
    match arg, fv with
    | VFloat b, Some (VFloat x) => Qle_bool x b
    | _, _ => false
    end
  else false.

Definition field_holds (d : Product) (k : string) (v : pyval) : Prop :=
  match v with
  | VDict ops =>
      map_Forall (fun op arg => operator_holds ops (field k d) op arg = true)
        ops
  | _ => equals v (field k d) = true
  end.

Definition clause_holds (d : Product) (c : pyval) : Prop :=
  match c with
  | VDict f => map_Forall (field_holds d) f
  | _ => False
  end.

Definition entry_holds (d : Product) (k : string) (v : pyval) : Prop :=
  if bool_decide (k = "$or") then
    match v with
    | VList cs => Exists (clause_holds d) cs
    | _ => False
    end
  else field_holds d k v.

Definition doc_matches (f : gmap string pyval) (d : Product) : Prop :=
  map_Forall (entry_holds d) f.

#[global] Instance field_holds_dec d k v : Decision (field_holds d k v).
Proof. destruct v; simpl; apply _. Defined.

#[global] Instance clause_holds_dec d c : Decision (clause_holds d c).
Proof. destruct c; simpl; apply _. Defined.

#[global] Instance entry_holds_dec d k v : Decision (entry_holds d k v).
Proof. unfold entry_holds. destruct (bool_decide (k = "$or")), v; apply _. Defined.

#[global] Instance doc_matches_dec f d : Decision (doc_matches f d).
Proof. unfold doc_matches. apply _. Defined.

(** A text field of a document matches the pattern [q] without regard
    to case. *)
Definition text_matches (q : str) (fv : option str) : Prop :=
  exists s, fv = Some s /\ regex_search q (u "i") s = true.

End Semantics.

(** *** A fragment of the store's regular expressions

    Patterns in which every character stands for itself except the dot,
    which stands for any character but the line feed; with the option
    [i] letters match in either case. *)

Definition char_matches (caseless : bool) (p c : N) : bool :=
  if (p =? 46)%N then negb (c =? 10)%N
  else if caseless then (lower_latin1 p =? lower_latin1 c)%N
  else (p =? c)%N.

Fixpoint match_here (caseless : bool) (p s : str) : bool :=
  match p, s with
  | [], _ => true
  | _ :: _, [] => false
  | a :: p', c :: s' => char_matches caseless a c && match_here caseless p' s'
  end.

Fixpoint search (caseless : bool) (p s : str) : bool :=
  match_here caseless p s ||
  match s with
  | [] => false
  | _ :: s' => search caseless p s'
  end.

Definition dot_regex (pattern options subject : str) : bool :=
  search (contains (u "i") options) pattern subject.





End Mongo.

(** ** The process environment *)

Module Env.

(** [os.getenv(name)]: the value of the variable, [None] when it is not
    set. *)
Definition getenv (env : gmap string str) (name : string) : option str :=
  env !! name.

(** [os.getenv(name, default)] *)
Definition getenv_default (env : gmap string str) (name : string)
    (default : str) : str :=
  match env !! name with
  | Some v => v
  | None => default
  end.

End Env.

Export Env.

(** ** The health check: [test_database] *)

Module Health.

(** The object [db] of the module [database], as the handler uses it:
    the attribute [name], whose lookup may raise (a missing attribute is
    the default [None] of [getattr]), and the call
    [list_collection_names()]. *)
Record Database := {
  name : outcome (option str);
  list_collection_names : outcome (list str);
}.

(** The [response] dictionary; its six keys are there from the start
    and are only assigned to. *)
Record Response := {
  backend : str;
  database : str;
  database_url : option str;
  database_name : option str;
  connection_status : str;
  collections : list str;
}.

Definition set_database (v : str) (r : Response) : Response :=
  {| backend := backend r; database := v;
     database_url := database_url r; database_name := database_name r;
     connection_status := connection_status r;
     collections := collections r |}.

Definition set_database_url (v : option str) (r : Response) : Response :=
  {| backend := backend r; database := database r;
     database_url := v; database_name := database_name r;
     connection_status := connection_status r;
     collections := collections r |}.

Definition set_database_name (v : option str) (r : Response) : Response :=
  {| backend := backend r; database := database r;
     database_url := database_url r; database_name := v;
     connection_status := connection_status r;
     collections := collections r |}.

Definition set_connection_status (v : str) (r : Response) : Response :=
  {| backend := backend r; database := database r;
     database_url := database_url r; database_name := database_name r;
     connection_status := v;
     collections := collections r |}.

Definition set_collections (v : list str) (r : Response) : Response :=
  {| backend := backend r; database := database r;
     database_url := database_url r; database_name := database_name r;
     connection_status := connection_status r;
     collections := v |}.

(** Lines 38-45. *)
Definition initial : Response := {|
  backend := u "✅ Running";
  database := u "❌ Not Available";
  database_url := None;
  database_name := None;
  connection_status := u "Not Connected";
  collections := [];
|}.

(** [x or default] on an optional string. *)
Definition or_default (x : option str) (default : str) : str :=
  match x with
  | Some (c :: s) => c :: s
  | _ => default
  end.

(** Lines 47-62: the [try] statement. *)
Definition probe (db : option Database) (r : Response) : Response :=
  match db with
  | Some d =>
      let r := set_database (u "✅ Available") r in
      let r := set_database_url (Some (u "✅ Configured")) r in
      match name d with
      | Returns n =>
          let r := set_database_name (Some (or_default n (u "✅ Connected"))) r in
          let r := set_connection_status (u "Connected") r in
          match list_collection_names d with
          | Returns cs =>
              let r := set_collections (slice_to cs 10) r in
              set_database (u "✅ Connected & Working") r
          | Raises e =>
              set_database (u "⚠️  Connected but Error: " ++ slice_to e 50) r
          end
      | Raises e => set_database (u "❌ Error: " ++ slice_to e 50) r
      end
  | None => set_database (u "⚠️  Available but not initialized") r
  end.

(** ["✅ Set" if os.getenv(name) else "❌ Not Set"] *)
Definition set_or_not (env : gmap string str) (var : string) : str :=
  if truthy (getenv env var) then u "✅ Set" else u "❌ Not Set".

Definition test_database (db : option Database) (env : gmap string str)
    : Response :=
  let response := probe db initial in
  let response :=
    set_database_url (Some (set_or_not env "DATABASE_URL")) response in
  let response :=
    set_database_name (Some (set_or_not env "DATABASE_NAME")) response in
  response.

End Health.

(** ** The sitemap: [sitemap] *)

Module Sitemap.

(** [sep.join(parts)] *)
Fixpoint join (sep : str) (parts : list str) : str :=
  match parts with
  | [] => []
  | [p] => p
  | p :: rest => p ++ sep ++ join sep rest
  end.

(** [s.rstrip(chars)]: [s] without its trailing characters that occur
    in [chars]. *)
Fixpoint lstrip_chars (chars s : str) : str :=
  match s with
  | [] => []
  | c :: s' => if existsb (N.eqb c) chars then lstrip_chars chars s' else s
  end.

Definition rstrip_chars (chars s : str) : str :=
  rev (lstrip_chars chars (rev s)).

(** The double quote and the line feed. *)
Definition dq : str := [34%N].
Definition nl : str := [10%N].

Definition urls : list str := [u ""; u "catalogo"; u "noticias"].

(** The f-string of one [<url>] element. *)
Definition url_element (base path : str) : str :=
  u "  <url><loc>" ++ base ++ u "/" ++ path
  ++ u "</loc><changefreq>weekly</changefreq><priority>0.8</priority></url>".

Definition xml_items (base : str) : str :=
  join nl (map (fun path => rstrip_chars (u "/") (url_element base path))
             urls).

Definition sitemap (env : gmap string str) : str :=
  let base := getenv_default env "FRONTEND_URL" (u "https://example.com") in
  u "<?xml version=" ++ dq ++ u "1.0" ++ dq ++ u " encoding=" ++ dq
  ++ u "UTF-8" ++ dq ++ u "?>" ++ nl
  ++ u "<urlset xmlns=" ++ dq
  ++ u "http://www.sitemaps.org/schemas/sitemap/0.9" ++ dq ++ u ">" ++ nl
  ++ xml_items base ++ nl
  ++ u "</urlset>" ++ nl.

End Sitemap.

(** ** Vocabulary of the further properties *)

Module Shape.

(** The dictionary that [build_filter] stores under ["price"]. *)
Definition price_dict (min_price max_price : option Q) : gmap string pyval :=
  match min_price, max_price with
  | Some lo, Some hi => <["$lte" := VFloat hi]> {["$gte" := VFloat lo]}
  | Some lo, None => {["$gte" := VFloat lo]}
  | None, Some hi => {["$lte" := VFloat hi]}
  | None, None => ∅
  end.

(** The price of a document as the number it is, 0 when the field is
    missing. *)
Definition exact_price (d : Catalog.Product) : Q :=
  match Catalog.price d with
  | Some n => num_value n
  | None => 0%Q
  end.

(** The price of a document converted to a float, 0 when the field is
    missing: a float is itself, an integer the double nearest to it. *)
Definition float_price (d : Catalog.Product) : Q :=
  match Catalog.price d with
  | Some (PyInt i) => float_of_int (int64_val i)
  | Some (PyFloat x) => x
  | None => 0%Q
  end.

(** The price is missing, a float, or an integer of magnitude at most
    [2^53], which [float()] leaves as it is. *)
Definition plain_price (d : Catalog.Product) : bool :=
  match Catalog.price d with
  | Some (PyInt i) => Z.abs (int64_val i) <=? 2 ^ 53
  | _ => true
  end.

(** No two elements of the list have the same key. *)
Fixpoint distinct_keys {A} (key : A -> Q) (l : list A) : bool :=
  match l with
  | [] => true
  | x :: l' =>
      forallb (fun y => negb (Qeq_bool (key y) (key x))) l'
      && distinct_keys key l'
  end.

(** The number of elements of [l[:n]] for a list of [k] elements. *)
Definition slice_len (k n : Z) : Z :=
  if n <? 0 then Z.max 0 (k + n) else Z.min n k.

End Shape.

Export Shape.

(** * Properties *)

(** ** [sorted] is a stable sort *)

Section SortedFacts.

Context {A : Type}.
Variable key : A -> Q.

Lemma insert_sorted_perm x l : insert_sorted key x l ≡ₚ x :: l.
Proof.
  induction l as [|y l IH]; simpl; [done|].
  destruct (key y ?= key x)%Q; [done| |done].
  rewrite IH. apply perm_swap.
Qed.

Lemma sort_asc_perm l : sort_asc key l ≡ₚ l.
Proof.
  induction l as [|x l IH]; simpl; [done|].
  by rewrite insert_sorted_perm, IH.
Qed.

Lemma insert_sorted_sorted x l :
  StronglySorted (key_le key) l -> StronglySorted (key_le key) (insert_sorted key x l).
Proof.
  induction 1 as [|y l Hl IH Hy]; simpl.
  - repeat constructor.
  - destruct (key y ?= key x)%Q eqn:E.
    + assert (key_le key x y) as Hxy.
      { unfold key_le. apply Qeq_alt in E. rewrite E. apply Qle_refl. }
      constructor; [by constructor|]. constructor; [done|].
      eapply Forall_impl; [exact Hy|]. intros z Hz.
      unfold key_le in *. by eapply Qle_trans.
    + apply Qlt_alt in E. constructor; [done|].
      rewrite insert_sorted_perm. constructor; [|done].
      by apply Qlt_le_weak.
    + assert (key_le key x y) as Hxy.
      { unfold key_le. apply Qgt_alt in E. by apply Qlt_le_weak. }
      constructor; [by constructor|]. constructor; [done|].
      eapply Forall_impl; [exact Hy|]. intros z Hz.
      unfold key_le in *. by eapply Qle_trans.
Qed.

Lemma sort_asc_sorted l : StronglySorted (key_le key) (sort_asc key l).
Proof.
  induction l as [|x l IH]; simpl; [constructor|].
  by apply insert_sorted_sorted.
Qed.

(** Insertion moves [x] only past elements of a strictly smaller key, so
    the elements of any one key keep their order. *)
Lemma insert_sorted_stable p x l :
  List.filter (has_key key p) (insert_sorted key x l)
  = List.filter (has_key key p) (x :: l).
Proof.
  induction l as [|y l IH]; [done|].
  cbn [insert_sorted]. destruct (key y ?= key x)%Q eqn:E; [done| |done].
  apply Qlt_alt in E.
  cbn [List.filter] in *. rewrite IH.
  destruct (has_key key p y) eqn:Ey, (has_key key p x) eqn:Ex; try done.
  unfold has_key in *. apply Qeq_bool_iff in Ey, Ex.
  exfalso. apply (Qlt_not_eq _ _ E). by rewrite Ey, Ex.
Qed.

Lemma sort_asc_stable p l :
  List.filter (has_key key p) (sort_asc key l) = List.filter (has_key key p) l.
Proof.
  induction l as [|x l IH]; [done|].
  cbn [sort_asc]. rewrite insert_sorted_stable. cbn [List.filter].
  by rewrite IH.
Qed.

Lemma StronglySorted_rev_ge l :
  StronglySorted (key_le key) l -> StronglySorted (key_ge key) (rev l).
Proof.
  induction 1 as [|y l Hl IH Hy]; simpl; [constructor|].
  apply StronglySorted_app_2; [|done|repeat constructor].
  intros a b Ha Hb. apply list_elem_of_singleton in Hb as ->.
  apply list_elem_of_In, in_rev, list_elem_of_In in Ha.
  rewrite Forall_forall in Hy. by apply Hy.
Qed.

Lemma sorted_perm reverse l : sorted key reverse l ≡ₚ l.
Proof.
  destruct reverse; simpl; [|apply sort_asc_perm].
  rewrite <- (Permutation_rev (sort_asc key (rev l))), sort_asc_perm.
  symmetry. apply Permutation_rev.
Qed.

Lemma sorted_ascending l : StronglySorted (key_le key) (sorted key false l).
Proof. apply sort_asc_sorted. Qed.

Lemma sorted_descending l : StronglySorted (key_ge key) (sorted key true l).
Proof. apply StronglySorted_rev_ge, sort_asc_sorted. Qed.

Lemma sorted_stable reverse p l :
  List.filter (has_key key p) (sorted key reverse l) = List.filter (has_key key p) l.
Proof.
  destruct reverse; simpl; [|apply sort_asc_stable].
  rewrite List.filter_rev, sort_asc_stable, List.filter_rev.
  apply rev_involutive.
Qed.

Lemma has_key_refl x : has_key key (key x) x = true.
Proof. unfold has_key. by apply Qeq_bool_iff. Qed.

Lemma has_key_head_le p x l y :
  StronglySorted (key_le key) (y :: l) ->
  In x (List.filter (has_key key p) (y :: l)) -> key_le key y x.
Proof.
  intros Hs Hx. apply List.filter_In in Hx as [[->|Hx] _].
  - unfold key_le. apply Qle_refl.
  - apply StronglySorted_inv in Hs as [_ Hy].
    rewrite Forall_forall in Hy. by apply Hy, list_elem_of_In.
Qed.

(** A sorted list is determined by the order of the elements of each
    key: there is one stable sorted arrangement of a list, whichever
    algorithm computes it. *)
Lemma stable_sorted_unique l1 l2 :
  StronglySorted (key_le key) l1 -> StronglySorted (key_le key) l2 ->
  (forall p, List.filter (has_key key p) l1 = List.filter (has_key key p) l2) ->
  l1 = l2.
Proof.
  revert l2. induction l1 as [|x l1 IH]; intros [|y l2] Hs1 Hs2 H.
  - done.
  - specialize (H (key y)). cbn [List.filter] in H.
    by rewrite has_key_refl in H.
  - specialize (H (key x)). cbn [List.filter] in H.
    by rewrite has_key_refl in H.
  - assert (key_le key y x) as Hyx.
    { apply (has_key_head_le (key x) x l2 y Hs2). rewrite <- H.
      cbn [List.filter]. rewrite has_key_refl. by left. }
    assert (key_le key x y) as Hxy.
    { apply (has_key_head_le (key y) y l1 x Hs1). rewrite H.
      cbn [List.filter]. rewrite has_key_refl. by left. }
    assert (has_key key (key x) y = true) as Hk.
    { apply Qeq_bool_iff. by apply Qle_antisym. }
    assert (x = y) as <-.
    { specialize (H (key x)). cbn [List.filter] in H.
      rewrite has_key_refl, Hk in H. by injection H. }
    f_equal. apply IH.
    + by apply StronglySorted_inv in Hs1 as [? _].
    + by apply StronglySorted_inv in Hs2 as [? _].
    + intros p. specialize (H p). cbn [List.filter] in H.
      destruct (has_key key p x); [by injection H|done].
Qed.

(** So [sorted] with [reverse=False] is any stable sort of the list. *)
Lemma sorted_ascending_unique l l' :
  StronglySorted (key_le key) l' ->
  (forall p, List.filter (has_key key p) l' = List.filter (has_key key p) l) ->
  l' = sorted key false l.
Proof.
  intros Hs Hst. apply stable_sorted_unique; [done|apply sorted_ascending|].
  intros p. by rewrite Hst, sorted_stable.
Qed.


Lemma sorted_length reverse l : length (sorted key reverse l) = length l.
Proof. apply Permutation_length, sorted_perm. Qed.

End SortedFacts.

(** ** The catalog handler *)

Section CatalogFacts.

Import Catalog.

Variable get_documents :
  str -> gmap string pyval -> Z -> outcome (list Product).

Lemma apply_sort_asc docs :
  apply_sort (Some (u "price_asc")) docs = sorted price_key false docs.
Proof. reflexivity. Qed.

Lemma apply_sort_desc docs :
  apply_sort (Some (u "price_desc")) docs = sorted price_key true docs.
Proof. reflexivity. Qed.

Lemma apply_sort_other sort docs :
  sort <> Some (u "price_asc") -> sort <> Some (u "price_desc") ->
  apply_sort sort docs = docs.
Proof.
  intros Ha Hd. unfold apply_sort.
  rewrite !bool_decide_eq_false_2 by done. done.
Qed.

Lemma apply_sort_perm sort docs : apply_sort sort docs ≡ₚ docs.
Proof.
  unfold apply_sort. repeat case_bool_decide; auto using sorted_perm.
Qed.

Lemma apply_sort_length sort docs :
  length (apply_sort sort docs) = length docs.
Proof. apply Permutation_length, apply_sort_perm. Qed.

(** The first [limit] records of a list, for a limit that passed the
    validation of the query parameter. *)
Lemma slice_to_take {A} (l : list A) (limit : Z) :
  0 <= limit -> slice_to l limit = take (Z.to_nat limit) l.
Proof.
  intros H. unfold slice_to.
  destruct (limit <? 0) eqn:E; [|done]. apply Z.ltb_lt in E. lia.
Qed.

Lemma fetch_raises f limit e :
  get_documents (u "product") f limit = Raises e ->
  fetch get_documents f limit = slice_to demo limit.
Proof. intros H. unfold fetch. by rewrite H. Qed.

Lemma fetch_returns f limit docs :
  get_documents (u "product") f limit = Returns docs ->
  fetch get_documents f limit = docs.
Proof. intros H. unfold fetch. by rewrite H. Qed.

(** The demo list is in strictly ascending order of price, so on any
    prefix of it the ascending sort changes nothing and the descending
    sort is the reversal. *)
Lemma demo_prefix_sorted n :
  sorted price_key false (take n demo) = take n demo
  /\ sorted price_key true (take n demo) = rev (take n demo).
Proof.
  destruct n as [|[|[|[|n]]]]; split; reflexivity.
Qed.

End CatalogFacts.

Section CatalogClaims.

Import Catalog.

(** C1 does not hold as stated: with the store down and [sort = "price_desc"], the
    three demo records come back in the order demo-3, demo-2, demo-1,
    which is not the first three records of the demo catalog in their
    literal order. *)
Lemma list_products_fallback_desc_reorders :
  unavailable (u "product")
    (build_filter (Some (u "xyz-no-match")) (Some (u "Flyers")) None None None)
    3 = Raises (u "Database not available")
  /\ items (list_products unavailable (Some (u "xyz-no-match"))
              (Some (u "Flyers")) None None None (Some (u "price_desc")) 3)
     = rev demo
  /\ items (list_products unavailable (Some (u "xyz-no-match"))
              (Some (u "Flyers")) None None None (Some (u "price_desc")) 3)
     <> slice_to demo 3.
Proof.
  split; [reflexivity|]. split; [reflexivity|].
  intros H. apply (f_equal (fun l => head l ≫= _id)) in H.
  vm_compute in H. discriminate H.
Qed.

(** C1, as the code has it: whenever the store call raises, whatever the filter
    parameters, [list_products] returns the first [limit] records of the
    demo catalog, unfiltered; they come in their literal order for every
    sort value but ["price_desc"], for which that prefix is returned
    reversed, that is by descending price. *)
Theorem list_products_fallback
    (get_documents : str -> gmap string pyval -> Z -> outcome (list Product))
    (q category : option str) (min_price max_price : option Q)
    (in_stock : option bool) (sort : option str) (limit : Z) (e : str) :
  1 <= limit <= 200 ->
  get_documents (u "product")
    (build_filter q category min_price max_price in_stock) limit = Raises e ->
  items (list_products get_documents q category min_price max_price in_stock
           sort limit)
  = if bool_decide (sort = Some (u "price_desc"))
    then rev (take (Z.to_nat limit) demo)
    else take (Z.to_nat limit) demo.
Proof.
  intros Hlimit Hraise. unfold list_products. cbn [items].
  rewrite (fetch_raises _ _ _ _ Hraise), slice_to_take by lia.
  destruct (demo_prefix_sorted (Z.to_nat limit)) as [Hasc Hdesc].
  unfold apply_sort. case_bool_decide as Ha.
  - rewrite bool_decide_eq_false_2; [done|]. by rewrite Ha.
  - by case_bool_decide.
Qed.

Lemma list_products_fallback_witness :
  items (list_products unavailable (Some (u "xyz-no-match"))
           (Some (u "Flyers")) None None None (Some (u "relevance")) 2)
  = take 2 demo.
Proof.
  apply (list_products_fallback unavailable (Some (u "xyz-no-match"))
           (Some (u "Flyers")) None None None (Some (u "relevance")) 2
           (u "Database not available")).
  - lia.
  - reflexivity.
Defined.

(** The example of the specification: prices 99.0, 29.9, 49.0, and a
    document without price, which sorts as price 0. *)
Example sort_prices_example :
  let doc p := {| _id := None; title := None; description := None;
                  price := p; category := None; in_stock := None |} in
  let docs := [doc (Some (PyFloat (99 # 1))); doc (Some (PyFloat (299 # 10)));
               doc None; doc (Some (PyFloat (49 # 1)))] in
  map price (items (list_products (serving docs) None None None None None
                      (Some (u "price_asc")) 50))
  = [None; Some (PyFloat (299 # 10)); Some (PyFloat (49 # 1));
     Some (PyFloat (99 # 1))]
  /\ map price (items (list_products (serving docs) None None None None None
                         (Some (u "price_desc")) 50))
     = [Some (PyFloat (99 # 1)); Some (PyFloat (49 # 1));
        Some (PyFloat (299 # 10)); None]
  /\ map price (items (list_products (serving docs) None None None None None
                         (Some (u "newest")) 50))
     = map price docs.
Proof. repeat split. Qed.

Lemma float_of_int_plain (z : Z) :
  Z.abs z <= 2 ^ 53 -> float_of_int z = inject_Z z.
Proof.
  intros Hz. unfold float_of_int.
  destruct (Z.abs z <? 2 ^ 53) eqn:E; [done|]. apply Z.ltb_ge in E.
  assert (Z.abs z = 2 ^ 53) as Habs by lia.
  destruct (Z.abs_eq_or_opp z) as [H|H]; rewrite H in Habs.
  - by rewrite H, Habs.
  - assert (z = - 2 ^ 53) as -> by lia. reflexivity.
Qed.

Lemma price_key_float_price (d : Product) : price_key d = float_price d.
Proof.
  unfold price_key, float_price. by destruct (price d) as [[i|x]|].
Qed.

Lemma float_price_plain (d : Product) :
  plain_price d = true -> float_price d = exact_price d.
Proof.
  unfold plain_price, float_price, exact_price.
  destruct (price d) as [[i|x]|]; [|done|done].
  intros H%Z.leb_le. cbn [num_value]. by apply float_of_int_plain.
Qed.

Lemma StronglySorted_impl_in {A} (R R' : A -> A -> Prop) (l : list A) :
  (forall a b, In a l -> In b l -> R a b -> R' a b) ->
  StronglySorted R l -> StronglySorted R' l.
Proof.
  intros H Hs. induction Hs as [|x l Hl IH Hx]; [constructor|].
  constructor.
  - apply IH. intros a b Ha Hb. apply H; by right.
  - rewrite Forall_forall in Hx. apply Forall_forall. intros y Hy.
    apply list_elem_of_In in Hy as Hy'.
    apply H; [by left|by right|by apply Hx].
Qed.

(** C2 does not hold as stated: the sort key is [float(price)], and the
    integer prices 2^53 + 1 and 2^53 convert to the same float; asked for
    ["price_asc"], the handler leaves the two documents as they arrived,
    the higher price first. *)
Lemma list_products_asc_rounds_prices :
  let doc z :=
    {| _id := None; title := None; description := None;
       price := Some (PyInt z); category := None; in_stock := None |} in
  let a := doc {| int64_val := 9007199254740993; int64_range := I |} in
  let b := doc {| int64_val := 9007199254740992; int64_range := I |} in
  items (list_products (serving [a; b]) None None None None None
           (Some (u "price_asc")) 50) = [a; b]
  /\ (exact_price b < exact_price a)%Q
  /\ ~ StronglySorted (fun x y => (exact_price x <= exact_price y)%Q)
        (items (list_products (serving [a; b]) None None None None None
                  (Some (u "price_asc")) 50)).
Proof.
  intros doc a b.
  assert (items (list_products (serving [a; b]) None None None None None
                   (Some (u "price_asc")) 50) = [a; b]) as -> by reflexivity.
  assert (exact_price b < exact_price a)%Q as Hlt by reflexivity.
  split; [done|]. split; [done|].
  intros Hs. apply StronglySorted_inv in Hs as [_ Hab].
  apply Forall_inv in Hab. by apply Qle_not_lt in Hab.
Qed.

(** C2, as the code has it: on the documents obtained from the store or
    from the fallback, ["price_asc"] returns them rearranged in ascending
    and ["price_desc"] in descending order of the price converted to a
    float, a missing price counting as 0; that is the order of the prices
    themselves whenever every integer price is of magnitude at most 2^53
    (larger integers are compared after rounding to a double).  Under any
    other sort value the documents are returned as they arrived. *)
Theorem list_products_sort_order
    (get_documents : str -> gmap string pyval -> Z -> outcome (list Product))
    (q category : option str) (min_price max_price : option Q)
    (in_stock : option bool) (limit : Z) :
  let docs :=
    fetch get_documents
      (build_filter q category min_price max_price in_stock) limit in
  let result sort :=
    items (list_products get_documents q category min_price max_price
             in_stock sort limit) in
  (result (Some (u "price_asc")) ≡ₚ docs
   /\ StronglySorted (fun a b => (float_price a <= float_price b)%Q)
        (result (Some (u "price_asc"))))
  /\ (result (Some (u "price_desc")) ≡ₚ docs
      /\ StronglySorted (fun a b => (float_price b <= float_price a)%Q)
           (result (Some (u "price_desc"))))
  /\ (forallb plain_price docs = true ->
      StronglySorted (fun a b => (exact_price a <= exact_price b)%Q)
        (result (Some (u "price_asc")))
      /\ StronglySorted (fun a b => (exact_price b <= exact_price a)%Q)
           (result (Some (u "price_desc"))))
  /\ (forall d, price d = None -> float_price d = 0%Q /\ exact_price d = 0%Q)
  /\ (forall sort, sort <> Some (u "price_asc") ->
        sort <> Some (u "price_desc") -> result sort = docs).
Proof.
  intros docs result. subst result. unfold list_products. cbn [items].
  fold docs. rewrite apply_sort_asc, apply_sort_desc.
  assert (StronglySorted (fun a b => (float_price a <= float_price b)%Q)
            (sorted price_key false docs)) as Hasc.
  { eapply StronglySorted_impl_in; [|apply sorted_ascending].
    intros a b _ _. unfold key_le. by rewrite !price_key_float_price. }
  assert (StronglySorted (fun a b => (float_price b <= float_price a)%Q)
            (sorted price_key true docs)) as Hdesc.
  { eapply StronglySorted_impl_in; [|apply sorted_descending].
    intros a b _ _. unfold key_ge. by rewrite !price_key_float_price. }
  split; [split; [apply sorted_perm|done]|].
  split; [split; [apply sorted_perm|done]|].
  split; [|split].
  - intros Hplain. rewrite forallb_forall in Hplain.
    assert (forall reverse a, In a (sorted price_key reverse docs) ->
              float_price a = exact_price a) as Hex.
    { intros reverse a Ha. apply float_price_plain, Hplain.
      apply list_elem_of_In. rewrite <- (sorted_perm price_key reverse docs).
      by apply list_elem_of_In. }
    split.
    + eapply StronglySorted_impl_in; [|exact Hasc].
      intros a b Ha Hb. cbn beta.
      by rewrite (Hex false a Ha), (Hex false b Hb).
    + eapply StronglySorted_impl_in; [|exact Hdesc].
      intros a b Ha Hb. cbn beta.
      by rewrite (Hex true a Ha), (Hex true b Hb).
  - intros d Hd. unfold float_price, exact_price. by rewrite Hd.
  - intros sort Ha Hd. by apply apply_sort_other.
Qed.

Lemma list_products_sort_order_witness :
  StronglySorted (fun a b => (exact_price a <= exact_price b)%Q)
    (items (list_products unavailable None None None None None
              (Some (u "price_asc")) 3))
  /\ StronglySorted (fun a b => (exact_price b <= exact_price a)%Q)
       (items (list_products unavailable None None None None None
                 (Some (u "price_desc")) 3)).
Proof.
  apply (list_products_sort_order unavailable None None None None None 3).
  reflexivity.
Defined.

(** C3: in every response of [list_products] the field [count] is the
    length of the [items] returned, which is the number of documents
    obtained after the truncation to [limit] and after the fallback; with
    the store down that is [min(limit, 3)]. *)
Theorem list_products_count
    (get_documents : str -> gmap string pyval -> Z -> outcome (list Product))
    (q category : option str) (min_price max_price : option Q)
    (in_stock : option bool) (sort : option str) (limit : Z) :
  let f := build_filter q category min_price max_price in_stock in
  let r := list_products get_documents q category min_price max_price
             in_stock sort limit in
  count r = len (items r)
  /\ count r = len (fetch get_documents f limit)
  /\ (forall e, get_documents (u "product") f limit = Raises e ->
        0 <= limit -> count r = Z.min limit 3).
Proof.
  intros f r. subst r. unfold list_products. cbn [items count]. fold f.
  split; [done|].
  assert (len (apply_sort sort (fetch get_documents f limit))
          = len (fetch get_documents f limit)) as Hlen.
  { unfold len. by rewrite apply_sort_length. }
  split; [done|].
  intros e He Hlimit. rewrite Hlen, (fetch_raises _ _ _ _ He).
  rewrite slice_to_take by done. unfold len.
  rewrite length_take. change (length demo) with 3%nat. lia.
Qed.

(** C9: the price sorts are stable: for ["price_asc"] and for
    ["price_desc"] alike, and for every price [p], the documents whose
    price (0 when missing) equals [p] come out in the order in which
    they were obtained. *)
Theorem list_products_sort_stable
    (get_documents : str -> gmap string pyval -> Z -> outcome (list Product))
    (q category : option str) (min_price max_price : option Q)
    (in_stock : option bool) (limit : Z) (p : Q) :
  let docs :=
    fetch get_documents
      (build_filter q category min_price max_price in_stock) limit in
  let result sort :=
    items (list_products get_documents q category min_price max_price
             in_stock sort limit) in
  List.filter (has_key price_key p) (result (Some (u "price_asc")))
  = List.filter (has_key price_key p) docs
  /\ List.filter (has_key price_key p) (result (Some (u "price_desc")))
     = List.filter (has_key price_key p) docs.
Proof.
  intros docs result. subst result. unfold list_products. cbn [items].
  fold docs. rewrite apply_sort_asc, apply_sort_desc.
  split; apply sorted_stable.
Qed.

End CatalogClaims.

(** ** The filter dictionary *)

Section FilterFacts.

Import Catalog Mongo.

Variable regex_search : str -> str -> str -> bool.



(** One clause [{field: {"$regex": q, "$options": "i"}}] holds of a
    document when the field is a string in which the search for the
    pattern [q], with the option [i], succeeds. *)
Lemma regex_clause_holds d k (q : str) :
  clause_holds regex_search d (regex_clause k q)
  <-> exists s, field k d = Some (VStr s) /\ regex_search q (u "i") s = true.
Proof.
  unfold regex_clause, clause_holds. rewrite map_Forall_singleton.
  unfold field_holds.
  rewrite map_Forall_insert by done. rewrite map_Forall_singleton.
  unfold operator_holds, regex_options. simplify_map_eq.
  cbn [bool_decide decide_rel]. split.
  - intros [_ H]. destruct (field k d) as [[s| | | |]|]; try done. eauto.
  - intros (s & -> & H). done.
Qed.






End FilterFacts.

Section FilterClaims.

Import Catalog Mongo.




(** C10: an empty-string [category], and likewise an empty-string [q],
    builds the filter that the absent parameter builds, with no
    ["category"] entry and no ["$or"] entry, so the handler answers as if
    the parameter had not been sent; given alone, [category=""] leaves a
    filter that every document passes. *)
Theorem empty_string_parameter_ignored
    (get_documents : str -> gmap string pyval -> Z -> outcome (list Product))
    (regex_search : str -> str -> str -> bool)
    (q category : option str) (min_price max_price : option Q)
    (in_stock : option bool) (sort : option str) (limit : Z) :
  (build_filter q (Some []) min_price max_price in_stock
   = build_filter q None min_price max_price in_stock
   /\ build_filter q (Some []) min_price max_price in_stock !! "category"
      = None
   /\ list_products get_documents q (Some []) min_price max_price in_stock
        sort limit
      = list_products get_documents q None min_price max_price in_stock
          sort limit)
  /\ (build_filter (Some []) category min_price max_price in_stock
      = build_filter None category min_price max_price in_stock
      /\ build_filter (Some []) category min_price max_price in_stock !! "$or"
         = None
      /\ list_products get_documents (Some []) category min_price max_price
           in_stock sort limit
         = list_products get_documents None category min_price max_price
             in_stock sort limit)
  /\ (forall d,
        doc_matches regex_search (build_filter None (Some []) None None None)
          d).
Proof.
  repeat split; try reflexivity.
  - unfold build_filter. cbn [truthy].
    destruct in_stock, q as [[|c q']|], min_price, max_price;
      cbn [truthy orb bool_decide decide_rel];
      repeat case_bool_decide; try done; by simplify_map_eq.
  - unfold build_filter. cbn [truthy].
    destruct in_stock, category as [[|c q']|], min_price, max_price;
      cbn [truthy orb bool_decide decide_rel];
      repeat case_bool_decide; try done; by simplify_map_eq.
  - intros d. apply map_Forall_empty.
Qed.

End FilterClaims.

(** ** The posts handler *)

Section PostsClaims.

Import Posts.

(** C8: for a limit between 1 and 50, when the store call raises,
    [list_posts] returns the first [limit] records of the three demo
    posts, in the order in which the list is written. *)
Theorem list_posts_fallback
    (get_documents : str -> gmap string pyval -> Z -> outcome (list Post))
    (limit : Z) (e : str) :
  1 <= limit <= 50 ->
  get_documents (u "blogpost") ∅ limit = Raises e ->
  items (list_posts get_documents limit) = take (Z.to_nat limit) demo_posts.
Proof.
  intros Hlimit Hraise. unfold list_posts. rewrite Hraise. cbn [items].
  apply slice_to_take. lia.
Qed.

Lemma list_posts_fallback_witness :
  items (list_posts unavailable 2) = take 2 demo_posts.
Proof.
  apply (list_posts_fallback unavailable 2 (u "Database not available")).
  - lia.
  - reflexivity.
Defined.

End PostsClaims.

(** ** The chat assistant *)

Section ChatbotFacts.

Import Chatbot.

Lemma classify_pricing text :
  any_in pricing_keywords text = true -> classify text = pricing_reply.
Proof. intros H. unfold classify. by rewrite H. Qed.

Lemma lstrip_blank (s : str) :
  Forall (fun c => isspace c = true) s -> lstrip s = [].
Proof.
  induction 1 as [|c s Hc _ IH]; [done|]. cbn [lstrip]. by rewrite Hc.
Qed.

Lemma strip_blank (s : str) :
  Forall (fun c => isspace c = true) s -> strip s = [].
Proof. intros H. unfold strip. by rewrite lstrip_blank. Qed.

Lemma normalize_blank unicode_lower (s : str) :
  Forall (fun c => isspace c = true) s -> normalize unicode_lower s = [].
Proof.
  intros H. unfold normalize.
  replace (or_empty s) with s by by destruct s.
  by rewrite strip_blank.
Qed.

End ChatbotFacts.

Section ChatbotClaims.

Import Chatbot.

(** C4: whenever the trimmed, lowercased message contains one of the
    pricing keywords, [chatbot] returns the pricing reply with its three
    suggestions, whether or not a scheduling keyword occurs in the text
    as well. *)
Theorem chatbot_pricing_first (unicode_lower : str -> str)
    (msg : ChatMessage) :
  (exists w, w ∈ pricing_keywords
     /\ contains w (normalize unicode_lower (message msg)) = true) ->
  chatbot unicode_lower msg = pricing_reply
  /\ exists a b c, suggestions (chatbot unicode_lower msg) = Some [a; b; c].
Proof.
  intros (w & Hw & Hin).
  assert (chatbot unicode_lower msg = pricing_reply) as ->.
  { apply classify_pricing. apply existsb_exists.
    exists w. split; [by apply list_elem_of_In|done]. }
  split; [done|]. by repeat eexists.
Qed.

Lemma chatbot_pricing_first_witness :
  any_in scheduling_keywords
    (normalize (fun s => s) (u "  Qual o PREÇO da visita?  ")) = true
  /\ chatbot (fun s => s)
       {| message := u "  Qual o PREÇO da visita?  "; context := None |}
     = pricing_reply.
Proof.
  split; [reflexivity|].
  apply (chatbot_pricing_first (fun s => s)
           {| message := u "  Qual o PREÇO da visita?  ";
              context := None |}).
  exists (u "preço"). split; [|reflexivity].
  apply list_elem_of_In. right. by left.
Defined.

(** C6: on the message "Preciso de assistência técnica" the handler finds
    no keyword of either group, the text having "assistência" and
    "técnica" where the list has "assistencia", "técnico" and "tecnico";
    it returns the generic reply, which carries suggestions and no
    action. *)
Theorem chatbot_assistencia_tecnica (unicode_lower : str -> str)
    (ctx : option (gmap string str)) :
  let msg := {| message := u "Preciso de assistência técnica";
                context := ctx |} in
  normalize unicode_lower (message msg) = u "preciso de assistência técnica"
  /\ any_in scheduling_keywords (normalize unicode_lower (message msg))
     = false
  /\ chatbot unicode_lower msg = generic_reply
  /\ action (chatbot unicode_lower msg) = None
  /\ chatbot unicode_lower msg <> scheduling_reply.
Proof.
  intros msg.
  assert (normalize unicode_lower (message msg)
          = u "preciso de assistência técnica") as Hn by reflexivity.
  assert (chatbot unicode_lower msg = generic_reply) as Hc.
  { unfold chatbot. rewrite Hn. reflexivity. }
  rewrite Hc, Hn. repeat split; try reflexivity.
  intros H. apply (f_equal action) in H. discriminate H.
Qed.

(** C7: [chatbot] answers every message with one of its three replies,
    and a message that is empty or made of whitespace only with the
    generic greeting and its three suggestions. *)
Theorem chatbot_blank_generic (unicode_lower : str -> str)
    (msg : ChatMessage) :
  (chatbot unicode_lower msg = pricing_reply
   \/ chatbot unicode_lower msg = scheduling_reply
   \/ chatbot unicode_lower msg = generic_reply)
  /\ (Forall (fun c => isspace c = true) (message msg) ->
      chatbot unicode_lower msg = generic_reply
      /\ exists a b c,
           suggestions (chatbot unicode_lower msg) = Some [a; b; c]).
Proof.
  split.
  - unfold chatbot, classify.
    destruct (any_in pricing_keywords _); [by left|].
    destruct (any_in scheduling_keywords _); [right; by left|].
    right; by right.
  - intros H. unfold chatbot. rewrite normalize_blank by done.
    split; [reflexivity|]. by repeat eexists.
Qed.

Lemma chatbot_blank_generic_witness :
  chatbot (fun s => s) {| message := u "   "; context := None |}
  = generic_reply
  /\ chatbot (fun s => s) {| message := u ""; context := None |}
     = generic_reply.
Proof.
  split.
  - apply (chatbot_blank_generic (fun s => s)
             {| message := u "   "; context := None |}).
    by repeat constructor.
  - apply (chatbot_blank_generic (fun s => s)
             {| message := u ""; context := None |}).
    constructor.
Defined.

End ChatbotClaims.

(** * Further properties of the handlers *)

(** ** Strings *)

Section StringFacts.

Lemma startswith_spec (w t : str) :
  startswith w t = true <-> exists post, t = w ++ post.
Proof.
  revert t. induction w as [|a w IH]; intros t.
  - split; [by exists t|done].
  - destruct t as [|b t]; cbn [startswith].
    + split; [done|]. by intros [post ?].
    + rewrite andb_true_iff, N.eqb_eq, IH. split.
      * intros [-> [post ->]]. by exists post.
      * intros [post [= -> ->]]. eauto.
Qed.

(** [w in t] holds exactly when [t] is [w] between two other strings. *)
Lemma contains_spec (w t : str) :
  contains w t = true <-> exists pre post, t = pre ++ w ++ post.
Proof.
  induction t as [|b t IH]; cbn [contains];
    rewrite orb_true_iff, startswith_spec.
  - split.
    + intros [[post ->]|?]; [|done]. by exists [], post.
    + intros (pre & post & H). left. exists post.
      destruct pre; [done|discriminate H].
  - rewrite IH. split.
    + intros [[post ->]|(pre & post & ->)].
      * by exists [], post.
      * by exists (b :: pre), post.
    + intros ([|c pre] & post & H).
      * left. by exists post.
      * injection H as -> ->. right. by exists pre, post.
Qed.

Lemma isspace_spec (c : N) :
  isspace c = true <->
  ((9 <= c <= 13) \/ (28 <= c <= 32) \/ c = 133 \/ c = 160 \/ c = 5760
   \/ (8192 <= c <= 8202) \/ c = 8232 \/ c = 8233 \/ c = 8239 \/ c = 8287
   \/ c = 12288)%N.
Proof.
  unfold isspace.
  rewrite !orb_true_iff, !andb_true_iff, !N.leb_le, !N.eqb_eq. tauto.
Qed.

(** Lowercasing maps no character to or from a whitespace character. *)
Lemma isspace_lower_latin1 (c : N) : isspace (lower_latin1 c) = isspace c.
Proof.
  apply eq_true_iff_eq. rewrite !isspace_spec. unfold lower_latin1.
  destruct ((65 <=? c) && (c <=? 90))%N eqn:E1.
  { apply andb_true_iff in E1 as [?%N.leb_le ?%N.leb_le]. lia. }
  destruct ((192 <=? c) && (c <=? 222) && negb (c =? 215))%N eqn:E2; [|done].
  apply andb_true_iff in E2 as [E2 _].
  apply andb_true_iff in E2 as [?%N.leb_le ?%N.leb_le]. lia.
Qed.

Lemma lstrip_blank_app (ws s : str) :
  Forall (fun c => isspace c = true) ws -> lstrip (ws ++ s) = lstrip s.
Proof.
  induction 1 as [|c ws Hc _ IH]; [done|]. cbn. by rewrite Hc.
Qed.

Lemma rstrip_app_blank (s ws : str) :
  Forall (fun c => isspace c = true) ws -> rstrip (s ++ ws) = rstrip s.
Proof.
  intros H. unfold rstrip. rewrite rev_app_distr, lstrip_blank_app; [done|].
  by apply Forall_rev.
Qed.

Lemma rstrip_blank (ws : str) :
  Forall (fun c => isspace c = true) ws -> rstrip ws = [].
Proof. intros H. by rewrite <- (app_nil_l ws), rstrip_app_blank. Qed.

Lemma strip_padding (ws1 s ws2 : str) :
  Forall (fun c => isspace c = true) ws1 ->
  Forall (fun c => isspace c = true) ws2 ->
  strip (ws1 ++ s ++ ws2) = strip s.
Proof.
  intros H1 H2. unfold strip. rewrite lstrip_blank_app by done.
  induction s as [|c s IH]; cbn [app lstrip].
  - by rewrite (lstrip_blank ws2), !rstrip_blank.
  - destruct (isspace c); [done|].
    by rewrite (app_comm_cons s ws2 c), rstrip_app_blank.
Qed.

Lemma lstrip_map_lower (s : str) :
  lstrip (map lower_latin1 s) = map lower_latin1 (lstrip s).
Proof.
  induction s as [|c s IH]; [done|]. cbn [map lstrip].
  rewrite isspace_lower_latin1. by destruct (isspace c).
Qed.

Lemma strip_map_lower (s : str) :
  strip (map lower_latin1 s) = map lower_latin1 (strip s).
Proof.
  unfold strip, rstrip.
  by rewrite lstrip_map_lower, <- map_rev, lstrip_map_lower, map_rev.
Qed.

Lemma is_latin1_Forall (s : str) :
  is_latin1 s = true <-> Forall (fun c => (c < 256)%N) s.
Proof.
  unfold is_latin1. rewrite forallb_forall, Forall_forall.
  split; intros H c Hc.
  - apply N.ltb_lt, H. by apply list_elem_of_In.
  - apply N.ltb_lt, H. by apply list_elem_of_In.
Qed.

Lemma lstrip_Forall (P : N -> Prop) (s : str) :
  Forall P s -> Forall P (lstrip s).
Proof.
  induction 1 as [|c s Hc Hs IH]; [done|]. cbn.
  destruct (isspace c); [done|by constructor].
Qed.

Lemma strip_latin1 (s : str) :
  is_latin1 s = true -> is_latin1 (strip s) = true.
Proof.
  rewrite !is_latin1_Forall. intros H. unfold strip, rstrip.
  by apply Forall_rev, lstrip_Forall, Forall_rev, lstrip_Forall.
Qed.

End StringFacts.

(** ** The chat assistant, continued *)

Section ChatbotMore.

Import Chatbot.

Lemma or_empty_id (s : str) : or_empty s = s.
Proof. by destruct s. Qed.

Lemma normalize_latin1 unicode_lower (s : str) :
  is_latin1 s = true ->
  normalize unicode_lower s = strip (map lower_latin1 s).
Proof.
  intros H. unfold normalize, lower.
  rewrite or_empty_id, strip_latin1 by done. by rewrite strip_map_lower.
Qed.

Lemma replies_distinct :
  pricing_reply <> scheduling_reply /\ pricing_reply <> generic_reply
  /\ scheduling_reply <> generic_reply.
Proof.
  repeat split; intros H.
  - apply (f_equal action) in H. discriminate H.
  - apply (f_equal (fun r => head (reply r))) in H. vm_compute in H.
    discriminate H.
  - apply (f_equal action) in H. discriminate H.
Qed.

Lemma classify_cases text :
  (classify text = pricing_reply <-> any_in pricing_keywords text = true)
  /\ (classify text = scheduling_reply <->
      any_in pricing_keywords text = false
      /\ any_in scheduling_keywords text = true)
  /\ (classify text = generic_reply <->
      any_in pricing_keywords text = false
      /\ any_in scheduling_keywords text = false).
Proof.
  destruct replies_distinct as (Hps & Hpg & Hsg). unfold classify.
  destruct (any_in pricing_keywords text), (any_in scheduling_keywords text);
    repeat split; try done; try (by intros []); intros H; exfalso;
    by first [apply Hps|apply Hpg|apply Hsg|apply Hps; symmetry
             |apply Hpg; symmetry|apply Hsg; symmetry].
Qed.

End ChatbotMore.

Section ChatbotExtras.

Import Chatbot.

Lemma lstrip_keeps (a w b : str) c :
  isspace c = false -> exists a', lstrip (a ++ c :: w ++ b) = a' ++ c :: w ++ b.
Proof.
  intros Hc. induction a as [|x a IH]; cbn [app lstrip].
  - exists []. by rewrite Hc.
  - destruct (isspace x); [done|]. by exists (x :: a).
Qed.

(** Trimming removes no occurrence of a word without whitespace. *)
Lemma strip_keeps (a w b : str) :
  w <> [] -> Forall (fun c => isspace c = false) w ->
  exists a' b', strip (a ++ w ++ b) = a' ++ w ++ b'.
Proof.
  intros Hw Hs. unfold strip, rstrip.
  destruct w as [|c w]; [done|].
  assert (exists c' w', rev (c :: w) = c' :: w' /\ isspace c' = false)
    as (c' & w' & Hrev & Hc').
  { apply Forall_rev in Hs. destruct (rev (c :: w)) as [|c' w'] eqn:E.
    - apply (f_equal (@length N)) in E. rewrite length_rev in E. done.
    - exists c', w'. split; [done|]. by inversion Hs. }
  change ((c :: w) ++ b) with (c :: w ++ b).
  destruct (lstrip_keeps a w b c) as [a' ->]; [by inversion Hs|].
  replace (rev (a' ++ c :: w ++ b)) with (rev b ++ c' :: w' ++ rev a').
  2:{ change (c :: w ++ b) with ((c :: w) ++ b).
      rewrite !rev_app_distr, Hrev. by rewrite <- app_assoc. }
  destruct (lstrip_keeps (rev b) w' (rev a') c' Hc') as [b' ->].
  exists a', (rev b').
  change (c' :: w' ++ rev a') with ((c' :: w') ++ rev a'). rewrite <- Hrev.
  rewrite !rev_app_distr, !rev_involutive.
  by rewrite <- app_assoc.
Qed.

Lemma keywords_plain :
  Forall (fun w => w <> [] /\ Forall (fun c => isspace c = false) w
                   /\ map lower_latin1 w = w)
    (pricing_keywords ++ scheduling_keywords).
Proof. repeat constructor; done. Qed.

(** X1: the reply tells the branch taken: it is the pricing reply
    exactly when the normalized text has a pricing keyword, the
    scheduling reply (an action [schedule_suggest], no suggestions)
    exactly when it has no pricing keyword but a scheduling keyword, and
    the generic reply exactly when it has neither. *)
Theorem chatbot_branches (unicode_lower : str -> str) (msg : ChatMessage) :
  let text := normalize unicode_lower (message msg) in
  let r := chatbot unicode_lower msg in
  (r = pricing_reply <-> any_in pricing_keywords text = true)
  /\ (r = scheduling_reply <->
      any_in pricing_keywords text = false
      /\ any_in scheduling_keywords text = true)
  /\ (r = generic_reply <->
      any_in pricing_keywords text = false
      /\ any_in scheduling_keywords text = false)
  /\ (r = scheduling_reply ->
      action r = Some (u "schedule_suggest") /\ suggestions r = None).
Proof.
  intros text r. destruct (classify_cases text) as (Hp & Hs & Hg).
  split; [exact Hp|]. split; [exact Hs|]. split; [exact Hg|].
  intros H. rewrite H. by split.
Qed.

(** X2: whitespace around the message does not change the reply. *)
Theorem chatbot_ignores_padding (unicode_lower : str -> str)
    (ws1 m ws2 : str) (ctx : option (gmap string str)) :
  Forall (fun c => isspace c = true) ws1 ->
  Forall (fun c => isspace c = true) ws2 ->
  chatbot unicode_lower {| message := ws1 ++ m ++ ws2; context := ctx |}
  = chatbot unicode_lower {| message := m; context := ctx |}.
Proof.
  intros H1 H2. unfold chatbot, normalize. cbn [message].
  by rewrite !or_empty_id, strip_padding.
Qed.

Lemma chatbot_ignores_padding_witness :
  chatbot (fun s => s)
    {| message := u "  " ++ u "Horario de visita" ++ [9%N; 10%N; 160%N];
       context := None |}
  = chatbot (fun s => s)
      {| message := u "Horario de visita"; context := None |}.
Proof.
  apply (chatbot_ignores_padding (fun s => s) (u "  ")
           (u "Horario de visita") [9%N; 10%N; 160%N] None).
  - by repeat constructor.
  - by repeat constructor.
Defined.

(** X3: on messages of code points up to U+00FF the reply does not
    depend on the case of the letters, nor on the context sent along:
    two messages with the same lowercase form get the same reply. *)
Theorem chatbot_ignores_case (unicode_lower : str -> str)
    (m1 m2 : str) (ctx1 ctx2 : option (gmap string str)) :
  is_latin1 m1 = true -> is_latin1 m2 = true ->
  map lower_latin1 m1 = map lower_latin1 m2 ->
  chatbot unicode_lower {| message := m1; context := ctx1 |}
  = chatbot unicode_lower {| message := m2; context := ctx2 |}.
Proof.
  intros H1 H2 H. unfold chatbot. cbn [message].
  by rewrite !normalize_latin1, H.
Qed.

Lemma chatbot_ignores_case_witness :
  chatbot (fun s => s)
    {| message := u "COTAÇÃO para flyers"; context := None |}
  = chatbot (fun s => s)
      {| message := u "Cotação Para Flyers"; context := Some ∅ |}.
Proof.
  apply (chatbot_ignores_case (fun s => s) (u "COTAÇÃO para flyers")
           (u "Cotação Para Flyers") None (Some ∅)); reflexivity.
Defined.

(** X4: keywords are looked for as substrings of the whole message: a
    message of code points up to U+00FF whose lowercase form has a
    pricing keyword anywhere in it, be it inside a longer word, gets the
    pricing reply; trimming never removes the occurrence. *)
Theorem chatbot_keyword_anywhere (unicode_lower : str -> str)
    (m w : str) (ctx : option (gmap string str)) :
  is_latin1 m = true -> w ∈ pricing_keywords ->
  contains w (map lower_latin1 m) = true ->
  chatbot unicode_lower {| message := m; context := ctx |} = pricing_reply.
Proof.
  intros Hm Hw Hin. unfold chatbot. cbn [message].
  rewrite normalize_latin1 by done.
  apply contains_spec in Hin as (pre & post & ->).
  pose proof keywords_plain as Hk. rewrite Forall_forall in Hk.
  destruct (Hk w) as (Hne & Hsp & _); [apply elem_of_app; by left|].
  destruct (strip_keeps pre w post Hne Hsp) as (a' & b' & ->).
  apply classify_pricing, existsb_exists. exists w.
  split; [by apply list_elem_of_In|]. apply contains_spec. eauto.
Qed.

Lemma chatbot_keyword_anywhere_witness :
  chatbot (fun s => s)
    {| message := u "Envie-me os PREÇOS!"; context := None |}
  = pricing_reply.
Proof.
  apply (chatbot_keyword_anywhere (fun s => s) (u "Envie-me os PREÇOS!")
           (u "preço") None).
  - reflexivity.
  - apply list_elem_of_In. right. by left.
  - reflexivity.
Defined.

End ChatbotExtras.

(** ** The filter dictionary, continued *)

Set Warnings "-clear-no-such-hyp".

Section FilterMore.

Import Catalog Mongo.

Variable regex_search : str -> str -> str -> bool.

Lemma build_filter_lookups q category min_price max_price in_stock :
  let f := build_filter q category min_price max_price in_stock in
  f !! "category" = (if truthy category then VStr <$> category else None)
  /\ f !! "in_stock" = VBool <$> in_stock
  /\ f !! "$or"
     = (if truthy q
        then (fun q' => VList [regex_clause "title" q';
                               regex_clause "description" q';
                               regex_clause "category" q']) <$> q
        else None)
  /\ f !! "price"
     = (match min_price, max_price with
        | None, None => None
        | _, _ => Some (VDict (price_dict min_price max_price))
        end)
  /\ (forall k, k <> "category" -> k <> "in_stock" -> k <> "$or" ->
        k <> "price" -> f !! k = None).
Proof.
  intros f. subst f. unfold build_filter, price_dict.
  destruct category as [[|c cs]|], in_stock, q as [[|a q]|],
    min_price, max_price;
    cbn [truthy orb bool_decide decide_rel];
    repeat case_bool_decide; try done;
    repeat split; intros; by simplify_map_eq.
Qed.

Lemma gte_holds ops (o : option Q) lo :
  operator_holds regex_search ops (VFloat <$> o) "$gte" (VFloat lo) = true
  <-> exists p, o = Some p /\ (lo <= p)%Q.
Proof.
  unfold operator_holds. rewrite !bool_decide_eq_false_2 by done.
  rewrite bool_decide_eq_true_2 by done.
  destruct o as [p|]; cbn; [rewrite Qle_bool_iff|]; naive_solver.
Qed.

Lemma lte_holds ops (o : option Q) hi :
  operator_holds regex_search ops (VFloat <$> o) "$lte" (VFloat hi) = true
  <-> exists p, o = Some p /\ (p <= hi)%Q.
Proof.
  unfold operator_holds. rewrite !bool_decide_eq_false_2 by done.
  rewrite bool_decide_eq_true_2 by done.
  destruct o as [p|]; cbn; [rewrite Qle_bool_iff|]; naive_solver.
Qed.

Lemma bound_price d (P : Q -> Prop) :
  (exists p, num_value <$> price d = Some p /\ P p)
  <-> exists n, price d = Some n /\ P (num_value n).
Proof. destruct (price d); naive_solver. Qed.

(** What the entry under ["price"] asks of a document. *)
Lemma price_entry_holds d min_price max_price :
  entry_holds regex_search d "price" (VDict (price_dict min_price max_price))
  <-> (forall lo, min_price = Some lo ->
         exists p, price d = Some p /\ (lo <= num_value p)%Q)
      /\ (forall hi, max_price = Some hi ->
            exists p, price d = Some p /\ (num_value p <= hi)%Q).
Proof.
  unfold entry_holds. rewrite bool_decide_eq_false_2 by done.
  unfold field_holds, price_dict.
  change (field "price" d) with (VFloat <$> (num_value <$> price d)).
  destruct min_price as [lo|], max_price as [hi|];
    rewrite ?map_Forall_insert by done;
    rewrite ?map_Forall_singleton, ?gte_holds, ?lte_holds, ?bound_price.
  - naive_solver.
  - naive_solver.
  - naive_solver.
  - split; [done|]. intros _. apply map_Forall_empty.
Qed.

Lemma or_entry_holds d (q : str) :
  entry_holds regex_search d "$or"
    (VList [regex_clause "title" q; regex_clause "description" q;
            regex_clause "category" q])
  <-> text_matches regex_search q (title d)
      \/ text_matches regex_search q (description d)
      \/ text_matches regex_search q (Catalog.category d).
Proof.
  unfold entry_holds. rewrite bool_decide_eq_true_2 by done.
  rewrite !Exists_cons, Exists_nil, !regex_clause_holds.
  unfold text_matches, field. cbn.
  split.
  - intros [(s & H & ?)|[(s & H & ?)|[(s & H & ?)|[]]]];
      [left|right; left|right; right]; exists s; split; try done;
      by apply fmap_Some in H as (? & -> & [= ->]).
  - intros [(s & -> & ?)|[(s & -> & ?)|(s & -> & ?)]];
      [left|right; left|right; right; left]; by exists s.
Qed.

Lemma category_entry_holds d (c : str) :
  entry_holds regex_search d "category" (VStr c)
  <-> Catalog.category d = Some c.
Proof.
  unfold entry_holds. rewrite bool_decide_eq_false_2 by done.
  unfold field_holds, equals.
  change (field "category" d) with (VStr <$> Catalog.category d).
  destruct (Catalog.category d) as [c'|]; cbn; [|done].
  rewrite bool_decide_eq_true. naive_solver.
Qed.

Lemma in_stock_entry_holds d (b : bool) :
  entry_holds regex_search d "in_stock" (VBool b)
  <-> Catalog.in_stock d = Some b.
Proof.
  unfold entry_holds. rewrite bool_decide_eq_false_2 by done.
  unfold field_holds, equals.
  change (field "in_stock" d) with (VBool <$> Catalog.in_stock d).
  destruct (Catalog.in_stock d) as [b'|]; cbn; [|done].
  rewrite bool_decide_eq_true. naive_solver.
Qed.

(** A filter with entries under the four keys only is passed when the
    entry of each key, if there is one, holds. *)
Lemma doc_matches_by_key (f : gmap string pyval) d :
  (forall k, k <> "category" -> k <> "in_stock" -> k <> "$or" ->
     k <> "price" -> f !! k = None) ->
  doc_matches regex_search f d
  <-> Forall (fun k => forall v, f !! k = Some v ->
                entry_holds regex_search d k v)
        ["category"; "in_stock"; "$or"; "price"].
Proof.
  intros Hother. unfold doc_matches. rewrite !Forall_cons, Forall_nil. split.
  - intros H. repeat split; intros v Hv; by eapply map_Forall_lookup_1.
  - intros (Hc & Hs & Ho & Hp & _) k v Hk.
    destruct (decide (k = "category")) as [->|?]; [by apply Hc|].
    destruct (decide (k = "in_stock")) as [->|?]; [by apply Hs|].
    destruct (decide (k = "$or")) as [->|?]; [by apply Ho|].
    destruct (decide (k = "price")) as [->|?]; [by apply Hp|].
    rewrite Hother in Hk by done. done.
Qed.

(** The documents that pass the filter built from the parameters. *)
Lemma doc_matches_build_filter q category min_price max_price in_stock d :
  doc_matches regex_search
    (build_filter q category min_price max_price in_stock) d
  <-> (forall c, category = Some c -> c <> [] ->
         Catalog.category d = Some c)
      /\ (forall b, in_stock = Some b -> Catalog.in_stock d = Some b)
      /\ (forall q', q = Some q' -> q' <> [] ->
            text_matches regex_search q' (title d)
            \/ text_matches regex_search q' (description d)
            \/ text_matches regex_search q' (Catalog.category d))
      /\ (forall lo, min_price = Some lo ->
            exists p, price d = Some p /\ (lo <= num_value p)%Q)
      /\ (forall hi, max_price = Some hi ->
            exists p, price d = Some p /\ (num_value p <= hi)%Q).
Proof.
  destruct (build_filter_lookups q category min_price max_price in_stock)
    as (Hc & Hs & Ho & Hp & Hother).
  rewrite (doc_matches_by_key _ _ Hother), !Forall_cons, Forall_nil.
  rewrite Hc, Hs, Ho, Hp. clear Hc Hs Ho Hp Hother.
  assert ((forall v,
             (if truthy category then VStr <$> category else None) = Some v ->
             entry_holds regex_search d "category" v)
          <-> (forall c, category = Some c -> c <> [] ->
                 Catalog.category d = Some c)) as ->.
  { destruct category as [[|a c]|]; cbn.
    - split; [|done]. by intros _ c [= <-].
    - split.
      + intros H c' [= <-] _. by apply category_entry_holds, H.
      + intros H v [= <-]. by apply category_entry_holds, H.
    - done. }
  assert ((forall v, VBool <$> in_stock = Some v ->
             entry_holds regex_search d "in_stock" v)
          <-> (forall b, in_stock = Some b -> Catalog.in_stock d = Some b))
    as ->.
  { destruct in_stock as [b|]; cbn; [|done]. split.
    - intros H b' [= <-]. by apply in_stock_entry_holds, H.
    - intros H v [= <-]. by apply in_stock_entry_holds, H. }
  assert ((forall v,
             (if truthy q
              then (fun q' => VList [regex_clause "title" q';
                                     regex_clause "description" q';
                                     regex_clause "category" q']) <$> q
              else None) = Some v ->
             entry_holds regex_search d "$or" v)
          <-> (forall q', q = Some q' -> q' <> [] ->
                 text_matches regex_search q' (title d)
                 \/ text_matches regex_search q' (description d)
                 \/ text_matches regex_search q' (Catalog.category d)))
    as ->.
  { destruct q as [[|a q]|]; cbn.
    - split; [|done]. by intros _ c [= <-].
    - split.
      + intros H c' [= <-] _. by apply or_entry_holds, H.
      + intros H v [= <-]. by apply or_entry_holds, H.
    - done. }
  assert ((forall v,
             match min_price, max_price with
             | None, None => None
             | _, _ => Some (VDict (price_dict min_price max_price))
             end = Some v -> entry_holds regex_search d "price" v)
          <-> (forall lo, min_price = Some lo ->
                 exists p, price d = Some p /\ (lo <= num_value p)%Q)
              /\ (forall hi, max_price = Some hi ->
                    exists p, price d = Some p /\ (num_value p <= hi)%Q)) as ->.
  { rewrite <- price_entry_holds.
    destruct min_price, max_price; try (split; [by intros H; apply H|];
      by intros H v [= <-]).
    split; [|done]. intros _. unfold price_dict, entry_holds.
    rewrite bool_decide_eq_false_2 by done. apply map_Forall_empty. }
  tauto.
Qed.

End FilterMore.

Section FilterExtras.

Import Catalog Mongo.

(** X5: the filter has entries under ["category"], ["in_stock"],
    ["$or"] and ["price"] only: a category entry when the category is a
    non-empty string, an in-stock entry whenever the flag is given, be it
    [False], the three-clause ["$or"] entry when [q] is a non-empty
    string, and a price entry whenever a bound is given, be it 0, holding
    ["$gte"] for the lower and ["$lte"] for the upper bound. *)
Theorem build_filter_entries (q category : option str)
    (min_price max_price : option Q) (in_stock : option bool) :
  let f := build_filter q category min_price max_price in_stock in
  f !! "category" = (if truthy category then VStr <$> category else None)
  /\ f !! "in_stock" = VBool <$> in_stock
  /\ f !! "$or"
     = (if truthy q
        then (fun q' => VList [regex_clause "title" q';
                               regex_clause "description" q';
                               regex_clause "category" q']) <$> q
        else None)
  /\ f !! "price"
     = (match min_price, max_price with
        | None, None => None
        | _, _ => Some (VDict (price_dict min_price max_price))
        end)
  /\ (forall k, k <> "category" -> k <> "in_stock" -> k <> "$or" ->
        k <> "price" -> f !! k = None).
Proof. apply build_filter_lookups. Qed.

(** X6: read as a query of the store, the filter is the conjunction of
    its parameters: a document passes exactly when its category is the
    non-empty category asked for, its in-stock flag is the flag asked
    for, one of its title, description and category matches the
    non-empty [q], and it has a price within the bounds given, both
    inclusive. *)
Theorem filter_is_conjunction
    (regex_search : str -> str -> str -> bool)
    (q category : option str) (min_price max_price : option Q)
    (in_stock : option bool) (d : Product) :
  doc_matches regex_search
    (build_filter q category min_price max_price in_stock) d
  <-> (forall c, category = Some c -> c <> [] ->
         Catalog.category d = Some c)
      /\ (forall b, in_stock = Some b -> Catalog.in_stock d = Some b)
      /\ (forall q', q = Some q' -> q' <> [] ->
            text_matches regex_search q' (title d)
            \/ text_matches regex_search q' (description d)
            \/ text_matches regex_search q' (Catalog.category d))
      /\ (forall lo, min_price = Some lo ->
            exists p, price d = Some p /\ (lo <= num_value p)%Q)
      /\ (forall hi, max_price = Some hi ->
            exists p, price d = Some p /\ (num_value p <= hi)%Q).
Proof. apply doc_matches_build_filter. Qed.

(** X7: the bounds are not checked against each other: with
    [min_price] above [max_price] the handler still queries the store,
    with a filter that no document passes. *)
Theorem crossed_price_bounds_match_nothing
    (regex_search : str -> str -> str -> bool)
    (q category : option str) (lo hi : Q) (in_stock : option bool)
    (d : Product) :
  (hi < lo)%Q ->
  build_filter q category (Some lo) (Some hi) in_stock !! "price"
  = Some (VDict (<["$lte" := VFloat hi]> {["$gte" := VFloat lo]}))
  /\ ~ doc_matches regex_search
         (build_filter q category (Some lo) (Some hi) in_stock) d.
Proof.
  intros Hlt. split.
  { by destruct (build_filter_lookups q category (Some lo) (Some hi)
                   in_stock) as (_ & _ & _ & -> & _). }
  rewrite doc_matches_build_filter. intros (_ & _ & _ & Hlo & Hhi).
  destruct (Hlo lo eq_refl) as (p & Hp & Hlop).
  destruct (Hhi hi eq_refl) as (p' & Hp' & Hphi).
  rewrite Hp in Hp'. injection Hp' as <-.
  apply (Qlt_not_le _ _ Hlt). by apply Qle_trans with (num_value p).
Qed.

Lemma crossed_price_bounds_match_nothing_witness :
  Forall (fun d => ~ doc_matches dot_regex
                      (build_filter None None (Some (50 # 1)%Q)
                         (Some (10 # 1)%Q) None) d) demo.
Proof.
  apply Forall_forall. intros d _.
  apply (crossed_price_bounds_match_nothing dot_regex None None
           (50 # 1)%Q (10 # 1)%Q None d).
  reflexivity.
Defined.

(** X8: a price bound, be it [min_price=0], is passed by no document
    that lacks the price field, although the sort counts a missing price
    as 0. *)
Theorem price_bound_needs_price
    (regex_search : str -> str -> str -> bool)
    (q category : option str) (min_price max_price : option Q)
    (in_stock : option bool) (d : Product) :
  price d = None ->
  (min_price <> None \/ max_price <> None) ->
  price_key d = 0%Q
  /\ ~ doc_matches regex_search
         (build_filter q category min_price max_price in_stock) d.
Proof.
  intros Hd Hb. split; [unfold price_key; by rewrite Hd|].
  rewrite doc_matches_build_filter. intros (_ & _ & _ & Hlo & Hhi).
  destruct Hb as [Hb|Hb].
  - destruct min_price as [lo|]; [|done].
    destruct (Hlo lo eq_refl) as (p & Hp & _). congruence.
  - destruct max_price as [hi|]; [|done].
    destruct (Hhi hi eq_refl) as (p & Hp & _). congruence.
Qed.

Lemma price_bound_needs_price_witness :
  ~ doc_matches dot_regex (build_filter None None (Some 0%Q) None None)
      {| _id := Some (u "x"); title := Some (u "Brinde");
         description := None; price := None; category := None;
         in_stock := None |}.
Proof.
  apply (price_bound_needs_price dot_regex None None (Some 0%Q) None None).
  - reflexivity.
  - left. discriminate.
Defined.

End FilterExtras.

(** ** Sorting, continued *)

Section SortedMore.

Context {A : Type}.
Variable key : A -> Q.

(** Sorting a list that was sorted before, in either direction, gives
    what sorting the original list gives. *)
Lemma sort_asc_absorbs reverse l :
  sort_asc key (sorted key reverse l) = sort_asc key l.
Proof.
  apply (sorted_ascending_unique key l).
  - apply sort_asc_sorted.
  - intros p. by rewrite sort_asc_stable, sorted_stable.
Qed.

Lemma sort_asc_rev_absorbs reverse l :
  sort_asc key (rev (sorted key reverse l)) = sort_asc key (rev l).
Proof.
  apply (sorted_ascending_unique key (rev l)).
  - apply sort_asc_sorted.
  - intros p.
    by rewrite sort_asc_stable, !List.filter_rev, sorted_stable.
Qed.

Lemma sorted_absorbs reverse reverse' l :
  sorted key reverse (sorted key reverse' l) = sorted key reverse l.
Proof.
  destruct reverse; cbn [sorted].
  - by rewrite sort_asc_rev_absorbs.
  - apply sort_asc_absorbs.
Qed.

Lemma filter_none (f : A -> bool) l :
  (forall y, In y l -> f y = false) -> List.filter f l = [].
Proof.
  intros H. destruct (List.filter f l) as [|c r] eqn:E; [done|].
  assert (In c (List.filter f l)) as Hc by (rewrite E; by left).
  apply List.filter_In in Hc as [Hc Hf]. rewrite (H c Hc) in Hf. done.
Qed.

Lemma distinct_keys_filter l p :
  distinct_keys key l = true ->
  (length (List.filter (has_key key p) l) <= 1)%nat.
Proof.
  induction l as [|x l IH]; cbn [distinct_keys List.filter]; [simpl; lia|].
  intros [Hx Hl]%andb_true_iff. specialize (IH Hl).
  destruct (has_key key p x) eqn:Ex; [|done].
  assert (List.filter (has_key key p) l = []) as ->; [|simpl; lia].
  apply filter_none. intros y Hy.
  rewrite forallb_forall in Hx. specialize (Hx y Hy).
  apply negb_true_iff in Hx. unfold has_key in *.
  apply not_true_iff_false. intros Ey.
  apply Qeq_bool_iff in Ex, Ey. apply not_true_iff_false in Hx. apply Hx.
  apply Qeq_bool_iff. by rewrite Ex, Ey.
Qed.

Lemma rev_short (l : list A) : (length l <= 1)%nat -> rev l = l.
Proof. destruct l as [|x [|y l]]; simpl; [done|done|lia]. Qed.

(** Without ties the descending sort is the ascending sort reversed. *)
Lemma sorted_reverse_distinct l :
  distinct_keys key l = true ->
  sorted key true l = rev (sorted key false l).
Proof.
  intros Hd. cbn [sorted]. f_equal.
  apply (sorted_ascending_unique key l).
  - apply sort_asc_sorted.
  - intros p. rewrite sort_asc_stable, List.filter_rev.
    by apply rev_short, distinct_keys_filter.
Qed.

End SortedMore.

(** ** The catalog and posts handlers, continued *)

Section HandlerFacts.

Lemma slice_to_len {A} (l : list A) (n : Z) :
  len (slice_to l n) = slice_len (len l) n.
Proof.
  unfold slice_to, slice_len, len.
  destruct (n <? 0) eqn:E; rewrite length_take; lia.
Qed.

Lemma slice_to_prefix {A} (l : list A) (n : Z) : slice_to l n `prefix_of` l.
Proof. unfold slice_to. destruct (n <? 0); apply prefix_take. Qed.

End HandlerFacts.

Section CatalogExtras.

Import Catalog.

Lemma apply_sort_absorbs sort sort' docs :
  sort' = Some (u "price_asc") \/ sort' = Some (u "price_desc") ->
  apply_sort sort' (apply_sort sort docs) = apply_sort sort' docs.
Proof.
  intros [->| ->]; rewrite ?apply_sort_asc, ?apply_sort_desc;
    unfold apply_sort; repeat case_bool_decide;
    by rewrite ?sorted_absorbs.
Qed.

(** X9: sorting is applied last and by price only, so sorting the items
    of any response again gives what the handler gives when asked for
    that sort directly: a price sort undoes whichever sort came
    before. *)
Theorem list_products_resort
    (get_documents : str -> gmap string pyval -> Z -> outcome (list Product))
    (q category q' category' : option str)
    (min_price max_price min_price' max_price' : option Q)
    (in_stock in_stock' : option bool) (sort sort' : option str)
    (limit limit' : Z) :
  sort' = Some (u "price_asc") \/ sort' = Some (u "price_desc") ->
  items (list_products
           (serving (items (list_products get_documents q category
                              min_price max_price in_stock sort limit)))
           q' category' min_price' max_price' in_stock' sort' limit')
  = items (list_products get_documents q category min_price max_price
             in_stock sort' limit).
Proof.
  intros Hs. unfold list_products. cbn [items].
  change (fetch (serving ?x) ?f ?l) with x.
  by apply apply_sort_absorbs.
Qed.

Lemma list_products_resort_witness :
  items (list_products
           (serving (items (list_products unavailable None None None None
                              None (Some (u "price_desc")) 3)))
           None None None None None (Some (u "price_asc")) 50)
  = items (list_products unavailable None None None None None
             (Some (u "price_asc")) 3).
Proof.
  apply (list_products_resort unavailable None None None None None None
           None None None None (Some (u "price_desc"))
           (Some (u "price_asc")) 3 50).
  by left.
Defined.

Lemma distinct_keys_ext {A} (key key' : A -> Q) (l : list A) :
  (forall a, key a = key' a) -> distinct_keys key l = distinct_keys key' l.
Proof.
  intros H. induction l as [|x l IH]; [done|]. cbn [distinct_keys].
  rewrite IH, H. f_equal. clear IH.
  induction l as [|y l IH]; [done|]. cbn [forallb]. by rewrite IH, H.
Qed.

(** X10: when no two of the documents obtained have prices that convert
    to the same float (a missing price counting as 0), [price_desc]
    returns the reverse of what [price_asc] returns. *)
Theorem list_products_desc_reverses_asc
    (get_documents : str -> gmap string pyval -> Z -> outcome (list Product))
    (q category : option str) (min_price max_price : option Q)
    (in_stock : option bool) (limit : Z) :
  distinct_keys float_price
    (fetch get_documents
       (build_filter q category min_price max_price in_stock) limit) = true ->
  items (list_products get_documents q category min_price max_price
           in_stock (Some (u "price_desc")) limit)
  = rev (items (list_products get_documents q category min_price
                  max_price in_stock (Some (u "price_asc")) limit)).
Proof.
  intros Hd. unfold list_products. cbn [items].
  rewrite apply_sort_asc, apply_sort_desc. apply sorted_reverse_distinct.
  rewrite <- Hd. apply distinct_keys_ext, price_key_float_price.
Qed.

Lemma list_products_desc_reverses_asc_witness :
  items (list_products unavailable None None None None None
           (Some (u "price_desc")) 3)
  = rev (items (list_products unavailable None None None None None
                  (Some (u "price_asc")) 3)).
Proof.
  apply (list_products_desc_reverses_asc unavailable None None None None
           None 3).
  reflexivity.
Defined.

(** X11: the handler passes on what the store returns: the items are
    the documents of the store, all of them even when they are more than
    [limit], rearranged by a price sort and untouched by any other sort
    value, and [count] is their number. *)
Theorem list_products_store_passthrough
    (get_documents : str -> gmap string pyval -> Z -> outcome (list Product))
    (q category : option str) (min_price max_price : option Q)
    (in_stock : option bool) (sort : option str) (limit : Z)
    (docs : list Product) :
  get_documents (u "product")
    (build_filter q category min_price max_price in_stock) limit
  = Returns docs ->
  let r := list_products get_documents q category min_price max_price
             in_stock sort limit in
  items r ≡ₚ docs
  /\ count r = len docs
  /\ (sort <> Some (u "price_asc") -> sort <> Some (u "price_desc") ->
      items r = docs).
Proof.
  intros Hret r. subst r. unfold list_products. cbn [items count].
  rewrite (fetch_returns _ _ _ _ Hret). split; [apply apply_sort_perm|].
  split; [unfold len; by rewrite apply_sort_length|].
  apply apply_sort_other.
Qed.

Lemma list_products_store_passthrough_witness :
  count (list_products (serving demo) None None None None None
           (Some (u "price_desc")) 1) = 3.
Proof.
  apply (list_products_store_passthrough (serving demo) None None None
           None None (Some (u "price_desc")) 1 demo).
  reflexivity.
Defined.

(** X12: with the store down and any integer as [limit], the items are
    the demo records of the slice [demo[:limit]]: none for 0, all but
    the last [-limit] for a negative limit, and [count] is their
    number. *)
Theorem list_products_fallback_any_limit
    (get_documents : str -> gmap string pyval -> Z -> outcome (list Product))
    (q category : option str) (min_price max_price : option Q)
    (in_stock : option bool) (sort : option str) (limit : Z) (e : str) :
  get_documents (u "product")
    (build_filter q category min_price max_price in_stock) limit
  = Raises e ->
  let r := list_products get_documents q category min_price max_price
             in_stock sort limit in
  items r ≡ₚ slice_to demo limit
  /\ count r = slice_len 3 limit
  /\ 0 <= count r <= 3.
Proof.
  intros Hraise r. subst r. unfold list_products. cbn [items count].
  rewrite (fetch_raises _ _ _ _ Hraise).
  assert (len (apply_sort sort (slice_to demo limit)) = slice_len 3 limit)
    as Hlen.
  { unfold len. rewrite apply_sort_length. apply (slice_to_len demo). }
  split; [apply apply_sort_perm|]. split; [done|].
  rewrite Hlen. unfold slice_len. destruct (limit <? 0) eqn:E; [lia|].
  apply Z.ltb_ge in E. lia.
Qed.

Lemma list_products_fallback_any_limit_witness :
  count (list_products unavailable None None None None None None (-1)) = 2
  /\ count (list_products unavailable None None None None None None 0) = 0.
Proof.
  split.
  - apply (list_products_fallback_any_limit unavailable None None None
             None None None (-1) (u "Database not available")).
    reflexivity.
  - apply (list_products_fallback_any_limit unavailable None None None
             None None None 0 (u "Database not available")).
    reflexivity.
Defined.

End CatalogExtras.

Section PostsExtras.

Import Posts.

(** X13: [list_posts] returns what the store returns, unchanged and
    whatever its length; when the store raises it returns a prefix of
    the demo posts, of [min(limit, 3)] records for a limit from 0 and of
    [max(0, 3 + limit)] records for a negative one. *)
Theorem list_posts_outcomes
    (get_documents : str -> gmap string pyval -> Z -> outcome (list Post))
    (limit : Z) :
  match get_documents (u "blogpost") ∅ limit with
  | Returns docs => items (list_posts get_documents limit) = docs
  | Raises _ =>
      items (list_posts get_documents limit) `prefix_of` demo_posts
      /\ len (items (list_posts get_documents limit)) = slice_len 3 limit
  end.
Proof.
  unfold list_posts.
  destruct (get_documents (u "blogpost") ∅ limit) as [docs|e]; cbn [items].
  - done.
  - split; [apply slice_to_prefix|apply (slice_to_len demo_posts)].
Qed.

End PostsExtras.

(** ** The health check *)

Section HealthExtras.

Import Health.

Lemma probe_cases db :
  match db with
  | None =>
      probe db initial
      = set_database (u "⚠️  Available but not initialized") initial
  | Some d =>
      match name d, list_collection_names d with
      | Raises e, _ =>
          database (probe db initial) = u "❌ Error: " ++ slice_to e 50
          /\ connection_status (probe db initial) = u "Not Connected"
          /\ collections (probe db initial) = []
      | Returns _, Raises e =>
          database (probe db initial)
          = u "⚠️  Connected but Error: " ++ slice_to e 50
          /\ connection_status (probe db initial) = u "Connected"
          /\ collections (probe db initial) = []
      | Returns _, Returns cs =>
          database (probe db initial) = u "✅ Connected & Working"
          /\ connection_status (probe db initial) = u "Connected"
          /\ collections (probe db initial) = slice_to cs 10
      end
  end.
Proof.
  destruct db as [[[n|e] [cs|e']]|]; done.
Qed.

Lemma set_or_not_set (env : gmap string str) var :
  set_or_not env var = u "✅ Set"
  <-> exists v, env !! var = Some v /\ v <> [].
Proof.
  unfold set_or_not, getenv.
  destruct (env !! var) as [[|c v]|]; cbn; split; try done.
  - by intros (? & [= <-] & ?).
  - intros _. by eexists.
  - by intros (? & [=] & _).
Qed.

(** X14: the fields [database_url] and [database_name] of the response
    tell only whether the environment variables [DATABASE_URL] and
    [DATABASE_NAME] are set to a non-empty string; what the [try] block
    stored in them (["✅ Configured"], the name of the database) is
    overwritten, so they are the same whatever [db] is. *)
Theorem test_database_env_fields (db db' : option Database)
    (env : gmap string str) :
  let r := test_database db env in
  database_url r = database_url (test_database db' env)
  /\ database_name r = database_name (test_database db' env)
  /\ (database_url r = Some (u "✅ Set") <->
      exists v, env !! "DATABASE_URL" = Some v /\ v <> [])
  /\ (database_name r = Some (u "✅ Set") <->
      exists v, env !! "DATABASE_NAME" = Some v /\ v <> [])
  /\ database_url r <> Some (u "✅ Configured").
Proof.
  intros r. subst r. unfold test_database.
  cbn [database_url database_name set_database_url set_database_name].
  split; [done|]. split; [done|].
  rewrite <- !set_or_not_set.
  split; [split; [by intros [= ->]|by intros ->]|].
  split; [split; [by intros [= ->]|by intros ->]|].
  intros [= H]. unfold set_or_not in H.
  destruct (truthy (getenv env "DATABASE_URL")); vm_compute in H;
    discriminate H.
Qed.

(** X15: the response lists at most ten collections, the first ones of
    the listing of the store, and none unless that listing succeeded. *)
Theorem test_database_collections (db : option Database)
    (env : gmap string str) :
  let r := test_database db env in
  (length (collections r) <= 10)%nat
  /\ match db with
     | Some d =>
         match name d, list_collection_names d with
         | Returns _, Returns cs => collections r = take 10 cs
         | _, _ => collections r = []
         end
     | None => collections r = []
     end.
Proof.
  intros r. subst r. unfold test_database.
  cbn [collections set_database_url set_database_name].
  pose proof (probe_cases db) as H.
  destruct db as [[[n|e] [cs|e']]|]; cbn [name list_collection_names] in *.
  - destruct H as (_ & _ & ->). split; [|done].
    change (slice_to cs 10) with (take 10 cs). rewrite length_take. lia.
  - destruct H as (_ & _ & ->). split; [simpl; lia|done].
  - destruct H as (_ & _ & ->). split; [simpl; lia|done].
  - destruct H as (_ & _ & ->). split; [simpl; lia|done].
  - rewrite H. split; [simpl; lia|done].
Qed.

Local Ltac status_cases :=
  let Hh := fresh "Hh" in
  split; [split; [intros Hh|intros (? & ? & ? & ? & ? & ?)]|];
  [..|split; [split; [intros Hh|intros (? & ? & ? & ?)]|];
      [..|split; [intros ? ? ? ? ? ?|done]]];
  try (by simplify_eq);
  try (by simplify_eq/=);
  try (by do 3 eexists);
  try (by do 2 eexists);
  try (apply (f_equal head) in Hh; vm_compute in Hh; discriminate Hh).

(** X16: the response says ["✅ Connected & Working"] exactly when there
    is a database object, its name could be read and its collections
    could be listed, and ["Connected"] exactly when there is a database
    object whose name could be read; an exception is reported by its
    first 50 characters and never propagated. *)
Theorem test_database_status (db : option Database)
    (env : gmap string str) :
  let r := test_database db env in
  (database r = u "✅ Connected & Working" <->
   exists d n cs, db = Some d /\ name d = Returns n
                  /\ list_collection_names d = Returns cs)
  /\ (connection_status r = u "Connected" <->
      exists d n, db = Some d /\ name d = Returns n)
  /\ (forall d n e, db = Some d -> name d = Returns n ->
        list_collection_names d = Raises e ->
        database r = u "⚠️  Connected but Error: " ++ take 50 e)
  /\ backend r = u "✅ Running".
Proof.
  intros r. subst r. unfold test_database.
  cbn [database connection_status backend set_database_url
       set_database_name].
  pose proof (probe_cases db) as H.
  destruct db as [[[n|e] [cs|e']]|]; cbn [name list_collection_names] in *.
  - destruct H as (-> & -> & _). status_cases.
  - destruct H as (-> & -> & _). status_cases.
  - destruct H as (-> & -> & _). status_cases.
  - destruct H as (-> & -> & _). status_cases.
  - rewrite H. status_cases.
Qed.

End HealthExtras.

(** ** The sitemap *)

Section SitemapExtras.

Import Sitemap.

Lemma rstrip_chars_kept (chars s : str) (c : N) :
  existsb (N.eqb c) chars = false ->
  rstrip_chars chars (s ++ [c]) = s ++ [c].
Proof.
  intros Hc. unfold rstrip_chars. rewrite rev_app_distr. cbn [rev app].
  cbn [lstrip_chars]. rewrite Hc. cbn [rev].
  by rewrite rev_involutive.
Qed.

Lemma url_element_ends (base path : str) :
  exists s, url_element base path = s ++ [62%N].
Proof.
  unfold url_element.
  assert (exists t, u "</loc><changefreq>weekly</changefreq><priority>0.8</priority></url>"
                    = t ++ [62%N]) as [t ->].
  { exists (removelast (u "</loc><changefreq>weekly</changefreq><priority>0.8</priority></url>")).
    by vm_compute. }
  eexists. by rewrite !app_assoc.
Qed.

(** X17: the [rstrip("/")] of the handler never removes anything, each
    element ending in [</url>]: whatever the base, the sitemap holds the
    three elements for [base + "/"], [base + "/catalogo"] and
    [base + "/noticias"], the first with its trailing slash; the base is
    the value of [FRONTEND_URL], be it empty, and
    [https://example.com] when the variable is not set. *)
Theorem sitemap_elements (env : gmap string str) :
  let base :=
    match env !! "FRONTEND_URL" with
    | Some v => v
    | None => u "https://example.com"
    end in
  (forall path,
     rstrip_chars (u "/") (url_element base path) = url_element base path)
  /\ xml_items base
     = url_element base [] ++ nl ++ url_element base (u "catalogo")
       ++ nl ++ url_element base (u "noticias")
  /\ exists head tail,
       sitemap env = head ++ xml_items base ++ tail
       /\ head = u "<?xml version=" ++ dq ++ u "1.0" ++ dq ++ u " encoding="
                 ++ dq ++ u "UTF-8" ++ dq ++ u "?>" ++ nl
                 ++ u "<urlset xmlns=" ++ dq
                 ++ u "http://www.sitemaps.org/schemas/sitemap/0.9" ++ dq
                 ++ u ">" ++ nl
       /\ tail = nl ++ u "</urlset>" ++ nl.
Proof.
  intros base.
  assert (forall path,
            rstrip_chars (u "/") (url_element base path)
            = url_element base path) as Hkeep.
  { intros path. destruct (url_element_ends base path) as [s ->].
    by apply rstrip_chars_kept. }
  split; [done|]. split.
  - unfold xml_items, urls. cbn [map join]. by rewrite !Hkeep.
  - eexists _, _. split; [|split; reflexivity].
    unfold sitemap, getenv_default. fold base.
    by rewrite <- !app_assoc.
Qed.

End SitemapExtras.
